(** * MAMO: queuing model, V2I transmission model, learner target sync,
      gradient reduction and environment loop

    A shallow embedding of the bespoke parts of the repository:
    - [Environments/utilities.py]: [sensingAndQueuing] and [v2iTransmission];
    - [Agents/MAD3PG/learning.py]: [D3PGLearner._replicated_step] and
      [average_gradients_across_replicas];
    - [Environments/environment_loop.py]: [EnvironmentLoop.run], with
      [Utilities/FileOperator.py]: [save_obj].

    Further parts of the same files are embedded after these: [load_obj],
    [init_file_name] and [init_policy_file_name] of [FileOperator.py];
    [EnvironmentLoop.run_episode] and [EnvironmentLoopforD4PG.run] of
    [environment_loop.py]; [get_variables],
    [get_first_available_accelerator_type] and the joint action of [_step]
    of [learning.py].

    Conventions.  Python floats are idealised: rationals [Q] in the queuing
    model (only field operations occur there), reals [R] in the transmission
    model (powers and logarithms occur there).  The code is embedded as it is
    written, with the errors that the interpreter raises on it: a [for]
    statement over an [int] raises [TypeError], an attribute that the
    instance does not have raises [AttributeError], and a call that passes a
    keyword that the callee has no parameter for raises [TypeError] before
    the body of the callee runs. *)

From Stdlib Require Import ZArith QArith Reals Lra Lia List String.
From stdpp Require Import base list.
Import ListNotations.

(** ** Exceptions and the error monad *)

(** [Exception message] is an error that the program raises itself, by a
    [raise] statement; the others are raised by the interpreter. *)
Inductive exn : Type :=
| IndexError
| ZeroDivisionError
| StopIteration
| TypeError
| AttributeError
| Exception (message : string).

Inductive result (A : Type) : Type :=
| Ok (a : A)
| Raise (e : exn).
Arguments Ok {A} a.
Arguments Raise {A} e.

Definition bind {A B : Type} (m : result A) (k : A -> result B) : result B :=
  match m with
  | Ok a => k a
  | Raise e => Raise e
  end.

Notation "'do' x <- m ; k" := (bind m (fun x => k))
  (at level 10, x name, m at level 100, k at level 200).

(** [l[i]] on a Python list or a numpy vector, for a non-negative index. *)
Definition index {A : Type} (l : list A) (i : nat) : result A :=
  match l !! i with
  | Some a => Ok a
  | None => Raise IndexError
  end.

(** [for x in xs: s = body(x, s)] *)
Fixpoint for_each {A S : Type} (xs : list A) (body : A -> S -> result S) (s : S)
  : result S :=
  match xs with
  | [] => Ok s
  | x :: xs' => do s' <- body x s ; for_each xs' body s'
  end.

(** [range(n)] *)
Definition range (n : nat) : list nat := seq 0 n.

(** [enumerate(xs)] *)
Definition enumerate {A : Type} (xs : list A) : list (nat * A) :=
  combine (seq 0 (length xs)) xs.

(** [iter(n)] on an [int]: an [int] is not iterable. *)
Definition iter_int (n : nat) : result (list nat) := Raise TypeError.

(** [for i in n: s = body(i, s)] for an [int] [n]: the [for] statement asks
    for the iterator of [n] before its first pass. *)
Definition for_each_in_int {S : Type} (n : nat) (body : nat -> S -> result S)
    (s : S) : result S :=
  do xs <- iter_int n ; for_each xs body s.

(** The parameters of a function, and those of them that have no default
    value. *)
Record signature : Type := {
  parameters : list string;
  required : list string
}.

(** Whether a call [f(k1=v1, ..., kn=vn)] binds: every keyword is a
    parameter of [f], and every parameter without default gets a value. *)
Definition binds (f : signature) (keywords : list string) : bool :=
  forallb (fun keyword => existsb (String.eqb keyword) (parameters f))
    keywords
  && forallb (fun parameter => existsb (String.eqb parameter) keywords)
       (required f).

(** The call [f(k1=v1, ..., kn=vn)], where [body] is [f] on the arguments:
    a call that does not bind raises [TypeError]. *)
Definition call {A : Type} (f : signature) (keywords : list string)
    (body : result A) : result A :=
  if binds f keywords then body else Raise TypeError.

(** ** Queuing model: [sensingAndQueuing] *)

Module Queuing.

Open Scope Q_scope.

(** A float64 result of a division of numpy floats: a finite number, or
    the non-finite value ([inf] or [nan]) of a division by zero. *)
Inductive float : Type :=
| Fin (q : Q)
| NonFinite.

Definition fdiv (a b : Q) : float :=
  if Qeq_bool b 0 then NonFinite else Fin (a / b).

(** The fields of [vehicle] and [vehicleAction] the queuing model reads. *)
Record vehicle : Type := {
  vehicle_no : Z;
  sensed_information_number : nat;
  information_canbe_sensed : list Z
}.

Record vehicleAction : Type := {
  action_time : Q;
  sensed_information : list Z;
  sensing_frequencies : list Q;
  uploading_priorities : list Q;
  transmission_power : Q
}.

(** The dictionaries appended to [action_list]. *)
Record action : Type := {
  type : Z;
  sensing_frequency : Q;
  uploading_priority : Q
}.

(** [get_sensed_information_type].  [sensed_information_number] is the
    [int] that gives [np.zeros] its shape, and the [for] statement is over
    this [int]. *)
Definition get_sensed_information_type
    (sensed_information_number : nat) (sensed_information : list Z)
    (v : vehicle) : result (list Z) :=
  let sensed_information_type := replicate sensed_information_number 0%Z in
  for_each_in_int sensed_information_number
    (fun i sensed_information_type =>
       do s <- index sensed_information i ;
       if (s =? 1)%Z
       then do t <- index (information_canbe_sensed v) i ;
            Ok (<[i := t]> sensed_information_type)
       else Ok (<[i := (-1)%Z]> sensed_information_type))
    sensed_information_type.

(** [action_list.sort(key=lambda value: value["uploading_priority"],
    reverse=True)]: Python's sort is stable, also with [reverse=True]. *)
Fixpoint insert_desc (x : action) (l : list action) : list action :=
  match l with
  | [] => [x]
  | y :: l' =>
      if Qle_bool (uploading_priority y) (uploading_priority x)
      then x :: y :: l'
      else y :: insert_desc x l'
  end.

Definition sort_desc (l : list action) : list action :=
  fold_right insert_desc [] l.

Section SensingAndQueuing.

(** [informationList.get_mean_service_time_by_vehicle_and_type] and
    [get_second_moment_service_time_by_vehicle_and_type] are not defined in
    the repository's [dataStruct.py]; they are lookups by vehicle number and
    information type. *)
Variable mean_service_time : Z -> Z -> Q.
Variable second_moment_service_time : Z -> Z -> Q.

(** The attributes that [__init__] sets on the instance and that
    [compute_queuing_times] is written against. *)
Record state : Type := {
  _vehicle_no : Z;
  _sensed_information_number : nat;
  _sensed_information : list Z;
  _sensing_frequencies : list Q;
  _uploading_priorities : list Q;
  _sensed_information_type : list Z
}.

(** [self.sensing_frequencies] and [self.uploading_priorities]: the
    instance has the attributes [_sensing_frequencies] and
    [_uploading_priorities], and none of these two names. *)
Definition self_sensing_frequencies (self : state) : result (list Q) :=
  Raise AttributeError.

Definition self_uploading_priorities (self : state) : result (list Q) :=
  Raise AttributeError.

(** The first loop of [compute_queuing_times], over the [int]
    [self._sensed_information_number]: one entry per sensed slot. *)
Definition build_action_list (self : state) : result (list action) :=
  for_each_in_int (_sensed_information_number self)
    (fun i action_list =>
       do s <- index (_sensed_information self) i ;
       if (s =? 1)%Z
       then
         do t <- index (_sensed_information_type self) i ;
         do sensing_frequencies <- self_sensing_frequencies self ;
         do f <- index sensing_frequencies i ;
         do uploading_priorities <- self_uploading_priorities self ;
         do p <- index uploading_priorities i ;
         Ok (action_list ++
             [{| type := t; sensing_frequency := f; uploading_priority := p |}])
       else Ok action_list)
    [].

(** [for i in self._sensed_information_number:
    if self._sensed_information_type[i] == data_type:
    queuing_times[i] = value] *)
Definition assign_by_type (self : state) (data_type : Z) (value : float)
    (queuing_times : list float) : result (list float) :=
  for_each_in_int (_sensed_information_number self)
    (fun i queuing_times =>
       do t <- index (_sensed_information_type self) i ;
       if (t =? data_type)%Z
       then Ok (<[i := value]> queuing_times)
       else Ok queuing_times)
    queuing_times.

(** The accumulation loop [for i in range(index)] over the higher-priority
    entries, starting from [0.0]. *)
Definition workload_before (vno : Z) (before : list action) : Q :=
  fold_left
    (fun workload a =>
       workload + sensing_frequency a * mean_service_time vno (type a))
    before 0.

Definition tau_before (vno : Z) (before : list action) : Q :=
  fold_left
    (fun tau a =>
       tau + sensing_frequency a * second_moment_service_time vno (type a))
    before 0.

(** [(1 / (1 - workload + sensing_frequency * mean_service_time)) *
     (mean_service_time + tau / (2 * (1 - workload))) - mean_service_time] *)
Definition queuing_time_expr
    (workload tau sensing_frequency mean_service_time : Q) : float :=
  match fdiv 1 (1 - workload + sensing_frequency * mean_service_time),
        fdiv tau (2 * (1 - workload)) with
  | Fin a, Fin b => Fin (a * (mean_service_time + b) - mean_service_time)
  | _, _ => NonFinite
  end.

(** The value that the body of [for index, action in enumerate(action_list)]
    assigns. *)
Definition queuing_time_at (vno : Z) (action_list : list action)
    (index : nat) (a : action) : float :=
  let mst := mean_service_time vno (type a) in
  let smst := second_moment_service_time vno (type a) in
  if Nat.eqb index 0 then Fin 0
  else
    let workload :=
      workload_before vno (take index action_list)
      + sensing_frequency a * mst in
    let tau :=
      tau_before vno (take index action_list)
      + sensing_frequency a * smst in
    queuing_time_expr workload tau (sensing_frequency a) mst.

Definition compute_queuing_times (self : state) : result (list float) :=
  let queuing_times := replicate (_sensed_information_number self) (Fin 0) in
  do unsorted <- build_action_list self ;
  let action_list := sort_desc unsorted in
  for_each (enumerate action_list)
    (fun '(index, a) queuing_times =>
       assign_by_type self (type a)
         (queuing_time_at (_vehicle_no self) action_list index a)
         queuing_times)
    queuing_times.

(** The part of [sensingAndQueuing.__init__] that leads to
    [self._queuing_times]. *)
Definition init (v : vehicle) (va : vehicleAction) : result state :=
  do types <- get_sensed_information_type
                (sensed_information_number v) (sensed_information va) v ;
  Ok {| _vehicle_no := vehicle_no v;
        _sensed_information_number := sensed_information_number v;
        _sensed_information := sensed_information va;
        _sensing_frequencies := sensing_frequencies va;
        _uploading_priorities := uploading_priorities va;
        _sensed_information_type := types |}.

Definition queuing_times (v : vehicle) (va : vehicleAction)
  : result (list float) :=
  do self <- init v va ; compute_queuing_times self.

End SensingAndQueuing.

End Queuing.

(** ** Transmission model: [v2iTransmission] *)

Module Transmission.

Open Scope R_scope.

Definition cover_MHz_to_Hz (MHz : R) : R := MHz * 10e6.

(** [np.power(10, (dBm / 10)) / 1000] *)
Definition cover_dBm_to_W (dBm : R) : R := Rpower 10 (dBm / 10) / 1000.

Definition cover_mW_to_W (mW : R) : R := mW / 1000.

(** [np.log2] *)
Definition log2 (x : R) : R := ln x / ln 2.

(** Python's [int()] on a float: truncation towards zero. *)
Definition int (x : R) : Z :=
  if Rle_dec 0 x then Int_part x else (- Int_part (- x))%Z.

(** [compute_SNR].  The source value is finite where
    [np.power(distance, path_loss_exponent)] is not zero. *)
Definition compute_SNR (white_gaussian_noise : Z) (channel_fading_gain : R)
    (distance : R) (path_loss_exponent : Z) (transmission_power : R) : R :=
  (1.0 / cover_dBm_to_W (IZR white_gaussian_noise)) *
  (Rabs channel_fading_gain) ^ 2 *
  1.0 / (powerRZ distance path_loss_exponent) *
  cover_mW_to_W transmission_power.

(** [compute_transmission_rate], defined for [1 + SNR > 0]. *)
Definition compute_transmission_rate (SNR bandwidth : R) : Z :=
  int (cover_MHz_to_Hz bandwidth * log2 (1 + SNR) / 8).

(** The parameters of [compute_SNR]; none has a default value. *)
Definition compute_SNR_signature : signature :=
  {| parameters :=
       ["white_gaussian_noise"; "channel_fading_gain"; "distance";
        "path_loss_exponent"; "transmission_power"]%string;
     required :=
       ["white_gaussian_noise"; "channel_fading_gain"; "distance";
        "path_loss_exponent"; "transmission_power"]%string |}.

(** [compute_successful_tansmission_probability]: the counting loop, whose
    state is the pair [(successful_transmission_number, total_number)], and
    the division of the two Python integers.  The call of [compute_SNR]
    passes the keywords written here. *)
Definition compute_successful_tansmission_probability
    (white_gaussian_noise : Z) (channel_fading_gains : list R) (distance : R)
    (path_loss_exponent : Z) (transmission_power SNR_target : R) : result R :=
  do counts <-
    for_each channel_fading_gains
      (fun channel_fading_gain
           '(successful_transmission_number, total_number) =>
         let total_number := S total_number in
         do SNR <-
           call compute_SNR_signature
             ["white_gaussian_noise"; "channel_fadding_gain"; "distance";
              "path_loss_exponent"; "transmission_power"]%string
             (Ok (compute_SNR white_gaussian_noise channel_fading_gain
                    distance path_loss_exponent transmission_power)) ;
         if Rge_dec SNR SNR_target
         then Ok (S successful_transmission_number, total_number)
         else Ok (successful_transmission_number, total_number))
      (0%nat, 0%nat) ;
  let '(successful_transmission_number, total_number) := counts in
  if Nat.eqb total_number 0
  then Raise ZeroDivisionError
  else Ok (INR successful_transmission_number / INR total_number).

(** The [while True] loop of [get_minimum_transmission_power], run for at
    most [fuel] evaluations of the loop body; [None] means that the loop is
    still running when the fuel is spent. *)
Fixpoint search (fuel : nat) (white_gaussian_noise : Z)
    (channel_fading_gains : list R) (distance : R) (path_loss_exponent : Z)
    (SNR_target probabiliity_threshold : R)
    (minimum_transmission_power : R) : option (result R) :=
  match fuel with
  | O => None
  | S fuel' =>
      match compute_successful_tansmission_probability white_gaussian_noise
              channel_fading_gains distance path_loss_exponent
              minimum_transmission_power SNR_target with
      | Raise e => Some (Raise e)
      | Ok probabiliity =>
          if Rle_dec probabiliity probabiliity_threshold
          then Some (Ok minimum_transmission_power)
          else
            search fuel' white_gaussian_noise channel_fading_gains distance
              path_loss_exponent SNR_target probabiliity_threshold
              (minimum_transmission_power - minimum_transmission_power * 0.01)
      end
  end.

(** The parameters of the static method
    [generate_channel_fading_gain(mean, second_moment, size=1)]. *)
Definition generate_channel_fading_gain_signature : signature :=
  {| parameters := ["mean"; "second_moment"; "size"]%string;
     required := ["mean"; "second_moment"]%string |}.

Section RandomDraws.

(** [np.random.normal(loc, scale, size)] over an explicit generator state:
    it returns [size] samples. *)
Variable rng : Type.
Variable normal : rng -> R -> R -> nat -> list R * rng.

Definition generate_channel_fading_gain (g : rng) (mean second_moment : R)
    (size : nat) : list R * rng :=
  normal g mean second_moment size.

(** [get_minimum_transmission_power].  The call of
    [generate_channel_fading_gain] passes the keywords written here; the
    draw and the loop follow in the case where the call binds. *)
Definition get_minimum_transmission_power (fuel : nat) (g : rng)
    (white_gaussian_noise : Z)
    (mean_channel_fading_gain second_moment_channel_fadding_gain : R)
    (distance : R) (path_loss_exponent : Z)
    (transmission_power SNR_target probabiliity_threshold : R)
  : option (result R) * rng :=
  let minimum_transmission_power := transmission_power in
  match call generate_channel_fading_gain_signature
          ["white_gaussian_noise"; "mean_channel_fading_gain";
           "second_moment_channel_fadding_gain"; "distance";
           "path_loss_exponent"; "size"]%string
          (Ok tt) with
  | Raise e => (Some (Raise e), g)
  | Ok _ =>
      let '(channel_fading_gains, g') :=
        generate_channel_fading_gain g mean_channel_fading_gain
          second_moment_channel_fadding_gain 100 in
      (search fuel white_gaussian_noise channel_fading_gains distance
         path_loss_exponent SNR_target probabiliity_threshold
         minimum_transmission_power,
       g')
  end.

End RandomDraws.

End Transmission.

(** ** Learner: [D3PGLearner._replicated_step] and
       [average_gradients_across_replicas] *)

Module Learner.

Section Gradients.

(** A gradient tensor, and the cross-replica mean of a tensor:
    [replica_context.all_reduce('mean', values)] reduces the tensors of the
    list one by one. *)
Variable tensor : Type.
Variable reduce_mean : tensor -> tensor.

Definition all_reduce_mean (values : list tensor) : list tensor :=
  map reduce_mean values.

(** [[g for g in gradients if g is not None]] *)
Definition without_nones (gradients : list (option tensor)) : list tensor :=
  omap (fun g => g) gradients.

(** [[i for i, g in enumerate(gradients) if g is not None]] *)
Definition indices_of_defined (gradients : list (option tensor)) : list nat :=
  omap (fun '(i, g) => match g with Some _ => Some i | None => None end)
    (enumerate gradients).

(** [None] is the undefined gradient; the assignments [results[ii] = result]
    are in range, [ii] being an index of [gradients] and [results] having
    its length. *)
Definition average_gradients_across_replicas
    (gradients : list (option tensor)) : list (option tensor) :=
  let gradients_without_nones := without_nones gradients in
  let original_indices := indices_of_defined gradients in
  let results_without_nones := all_reduce_mean gradients_without_nones in
  let results := replicate (length gradients) None in
  fold_left
    (fun results '(ii, result) => <[ii := Some result]> results)
    (combine original_indices results_without_nones)
    results.

End Gradients.

Section TargetUpdate.

Variable tensor : Type.
Variable sample : Type.
Variable fetches : Type.

(** The [.variables] of the six networks of one side (online or target). *)
Record networks : Type := {
  vehicle_observation_network : list tensor;
  vehicle_critic_network : list tensor;
  vehicle_policy_network : list tensor;
  edge_observation_network : list tensor;
  edge_critic_network : list tensor;
  edge_policy_network : list tensor
}.

(** The tuples [online_variables] and [target_variables]. *)
Definition variables (n : networks) : list tensor :=
  vehicle_observation_network n ++
  vehicle_critic_network n ++
  vehicle_policy_network n ++
  edge_observation_network n ++
  edge_critic_network n ++
  edge_policy_network n.

(** [for src, dest in zip(srcs, dests): dest.assign(src)]: the values held
    by the variables [dests] afterwards. *)
Fixpoint assign_all (srcs dests : list tensor) : list tensor :=
  match srcs, dests with
  | src :: srcs', _ :: dests' => src :: assign_all srcs' dests'
  | _, _ => dests
  end.

(** The networks [n] once their variables, in the order of [variables],
    hold [values]. *)
Definition with_values (n : networks) (values : list tensor) : networks :=
  let n1 := length (vehicle_observation_network n) in
  let n2 := length (vehicle_critic_network n) in
  let n3 := length (vehicle_policy_network n) in
  let n4 := length (edge_observation_network n) in
  let n5 := length (edge_critic_network n) in
  {| vehicle_observation_network := take n1 values;
     vehicle_critic_network := take n2 (drop n1 values);
     vehicle_policy_network := take n3 (drop n2 (drop n1 values));
     edge_observation_network := take n4 (drop n3 (drop n2 (drop n1 values)));
     edge_critic_network :=
       take n5 (drop n4 (drop n3 (drop n2 (drop n1 values))));
     edge_policy_network :=
       drop n5 (drop n4 (drop n3 (drop n2 (drop n1 values)))) |}.

(** The learner state that [_replicated_step] reads and writes.  The online
    and the target networks are distinct modules. *)
Record learner : Type := {
  online : networks;
  target : networks;
  _num_steps : Z;
  _target_update_period : Z;
  _iterator : list sample
}.

(** [self._num_steps] is a [tf.int32] variable. *)
Definition wrap_int32 (z : Z) : Z :=
  ((z + 2 ^ 31) mod 2 ^ 32 - 2 ^ 31)%Z.

(** [self._replicator.run(self._step, args=(sample,))] applies the
    optimizers to the trainable variables of the online networks and
    returns the losses; it reads the target networks.
    [reduce_mean_over_replicas] averages the fetches. *)
Variable _step : sample -> networks -> networks -> networks * fetches.
Variable reduce_mean_over_replicas : fetches -> fetches.

Definition update_target (self : learner) : networks :=
  if (_num_steps self mod _target_update_period self =? 0)%Z
  then with_values (target self)
         (assign_all (variables (online self)) (variables (target self)))
  else target self.

(** [tf.math.mod] by zero is an error; [next] on an exhausted iterator
    raises [StopIteration] after the target update and the increment. *)
Definition _replicated_step (self : learner) : learner * result fetches :=
  if (_target_update_period self =? 0)%Z
  then (self, Raise ZeroDivisionError)
  else
    let target' := update_target self in
    let num_steps' := wrap_int32 (_num_steps self + 1) in
    match _iterator self with
    | [] =>
        ({| online := online self;
            target := target';
            _num_steps := num_steps';
            _target_update_period := _target_update_period self;
            _iterator := [] |},
         Raise StopIteration)
    | sample :: rest =>
        let '(online', replicated_fetches) :=
          _step sample (online self) target' in
        ({| online := online';
            target := target';
            _num_steps := num_steps';
            _target_update_period := _target_update_period self;
            _iterator := rest |},
         Ok (reduce_mean_over_replicas replicated_fetches))
    end.

(** The learner after [k] calls of [_replicated_step]. *)
Fixpoint steps (k : nat) (self : learner) : learner :=
  match k with
  | O => self
  | S k' => fst (_replicated_step (steps k' self))
  end.

End TargetUpdate.

Arguments vehicle_observation_network {tensor} n.
Arguments vehicle_critic_network {tensor} n.
Arguments vehicle_policy_network {tensor} n.
Arguments edge_observation_network {tensor} n.
Arguments edge_critic_network {tensor} n.
Arguments edge_policy_network {tensor} n.
Arguments variables {tensor} n.
Arguments assign_all {tensor} srcs dests.
Arguments with_values {tensor} n values.
Arguments online {tensor sample} self : rename.
Arguments target {tensor sample} self : rename.
Arguments _num_steps {tensor sample} self : rename.
Arguments _target_update_period {tensor sample} self : rename.
Arguments _iterator {tensor sample} self : rename.
Arguments update_target {tensor sample} self.
Arguments _replicated_step {tensor sample fetches} _step
  reduce_mean_over_replicas self.
Arguments steps {tensor sample fetches} _step reduce_mean_over_replicas k self.
Arguments average_gradients_across_replicas {tensor} reduce_mean gradients.
Arguments without_nones {tensor} gradients.
Arguments all_reduce_mean {tensor} reduce_mean values.

End Learner.

(** ** Environment loop: [EnvironmentLoop.run] and [save_obj] *)

Module EnvLoop.

Open Scope string_scope.
Open Scope Z_scope.

(** [name[-4:]] *)
Definition last4 (name : string) : string :=
  substring (String.length name - 4) 4 name.

Section Run.

(** The environment, and [run_episode], which steps it and reports the
    episode length. *)
Variable environment : Type.
Variable run_episode : environment -> environment * Z.

(** The files written, latest first: [pickle.dump] of an object to a path. *)
Definition files : Type := list (string * environment).

Definition save_obj (obj : environment) (name : string) (fs : files) : files :=
  let name := if String.eqb (last4 name) ".pkl" then name else name ++ ".pkl" in
  (name, obj) :: fs.

Record loop_state : Type := {
  _environment : environment;
  episode_count : Z;
  step_count : Z;
  written : files;
  logged : list Z
}.

Definition should_terminate (num_episodes num_steps : option Z)
    (episode_count step_count : Z) : bool :=
  match num_episodes with
  | Some n => episode_count >=? n
  | None => false
  end
  || match num_steps with
     | Some n => step_count >=? n
     | None => false
     end.

(** One pass through the body of the [while] loop.  [temple_environment] is
    [file_name["temple_environment"]]. *)
Definition loop_body (label temple_environment : string) (st : loop_state)
  : loop_state :=
  let '(env, episode_length) := run_episode (_environment st) in
  let episode_count := episode_count st + 1 in
  let step_count := step_count st + episode_length in
  let written :=
    if negb (step_count mod 15000 =? 0) && String.eqb label "Evaluator_Loop"
    then save_obj env temple_environment (written st)
    else written st in
  {| _environment := env;
     episode_count := episode_count;
     step_count := step_count;
     written := written;
     logged := episode_length :: logged st |}.

(** The [while not should_terminate(...)] loop, for at most [fuel] passes. *)
Fixpoint loop (fuel : nat) (label temple_environment : string)
    (num_episodes num_steps : option Z) (st : loop_state)
  : option loop_state :=
  if should_terminate num_episodes num_steps (episode_count st) (step_count st)
  then Some st
  else
    match fuel with
    | O => None
    | S fuel' =>
        loop fuel' label temple_environment num_episodes num_steps
          (loop_body label temple_environment st)
    end.

Inductive run_result : Type :=
| ValueError
| Running
| Finished (st : loop_state).

Definition run (fuel : nat) (label temple_environment : string)
    (env : environment) (num_episodes num_steps : option Z) : run_result :=
  match num_episodes, num_steps with
  | Some _, Some _ => ValueError
  | _, _ =>
      match loop fuel label temple_environment num_episodes num_steps
              {| _environment := env; episode_count := 0; step_count := 0;
                 written := []; logged := [] |} with
      | Some st => Finished st
      | None => Running
      end
  end.

End Run.

Arguments _environment {environment} st : rename.
Arguments episode_count {environment} st : rename.
Arguments step_count {environment} st : rename.
Arguments written {environment} st : rename.
Arguments logged {environment} st : rename.
Arguments save_obj {environment} obj name fs.
Arguments loop_body {environment} run_episode label temple_environment st.
Arguments loop {environment} run_episode fuel label temple_environment
  num_episodes num_steps st.
Arguments run {environment} run_episode fuel label temple_environment env
  num_episodes num_steps.
Arguments ValueError {environment}.
Arguments Running {environment}.
Arguments Finished {environment} st.

End EnvLoop.

(** ** Files: [load_obj], [init_file_name] and [init_policy_file_name] *)

Module FileOperator.
Import EnvLoop.

Open Scope string_scope.

(** [pickle.load] on [open(name, 'rb')]: the object last dumped at the path
    [name]; [None] is the [FileNotFoundError] of [open] where nothing was
    written at that path. *)
Fixpoint load_obj {environment : Type} (name : string)
    (fs : files environment) : option environment :=
  match fs with
  | [] => None
  | (path, obj) :: fs' =>
      if String.eqb path name then Some obj else load_obj name fs'
  end.

(** The dictionary returned by [init_file_name]. *)
Record file_name : Type := {
  init_environment_with_reward_matrix_name : string;
  init_environment_without_reward_matrix_name : string;
  temple_environment : string
}.

(** [init_file_name], as a function of the two readings of the clock
    [dayTime] and [hourTime] and of [uuid.uuid4().hex]; the call of
    [os.makedirs] creates the directory [pwd], directories are not part of
    the file store. *)
Definition init_file_name (dayTime hourTime uuid_str : string) : file_name :=
  let pwd :=
    (("/home/neardws/Documents/AoV-Journal-Algorithm/Data/" ++ dayTime)
     ++ "-") ++ hourTime in
  {| init_environment_with_reward_matrix_name :=
       (pwd ++ "/") ++
       ("init_environment_" ++ uuid_str ++ "_with_reward_matrix.pkl");
     init_environment_without_reward_matrix_name :=
       (pwd ++ "/") ++
       ("init_environment_" ++ uuid_str ++ "_without_reward_matrix.pkl");
     temple_environment :=
       (pwd ++ "/") ++
       ("temple_environment_" ++ uuid_str ++ "_with_reward_matrix.pkl") |}.

(** The dictionary returned by [init_policy_file_name]. *)
Record policy_file_name : Type := {
  edge_policy_network : string;
  vehicle_policy_network : string;
  target_edge_policy_network : string;
  target_vehicle_policy_network : string
}.

Definition init_policy_file_name (dayTime hourTime uuid_str : string)
  : policy_file_name :=
  let pwd :=
    ((("/home/neardws/Documents/AoV-Journal-Algorithm/Data/" ++ dayTime)
      ++ "-") ++ hourTime) ++ "policy" in
  {| edge_policy_network :=
       (pwd ++ "/") ++ ("edge_policy_" ++ uuid_str ++ ".pkl");
     vehicle_policy_network :=
       (pwd ++ "/") ++ ("vehicle_policy_" ++ uuid_str ++ ".pkl");
     target_edge_policy_network :=
       (pwd ++ "/") ++ ("target_edge_policy_" ++ uuid_str ++ ".pkl");
     target_vehicle_policy_network :=
       (pwd ++ "/") ++ ("target_vehicle_policy_" ++ uuid_str ++ ".pkl") |}.

End FileOperator.

(** ** The second loop: [EnvironmentLoopforD4PG.run] *)

Module EnvLoopD4PG.
Import EnvLoop.

Open Scope Z_scope.

Section Run.

Variable environment : Type.
Variable run_episode : environment -> environment * Z.

(** One pass through the body of the [while] loop of
    [EnvironmentLoopforD4PG.run], which has no call of [save_obj]: the file
    store [written] stays as it is. *)
Definition loop_body (st : loop_state environment) : loop_state environment :=
  let '(env, episode_length) := run_episode (_environment st) in
  {| _environment := env;
     episode_count := episode_count st + 1;
     step_count := step_count st + episode_length;
     written := written st;
     logged := episode_length :: logged st |}.

Fixpoint loop (fuel : nat) (num_episodes num_steps : option Z)
    (st : loop_state environment) : option (loop_state environment) :=
  if should_terminate num_episodes num_steps (episode_count st) (step_count st)
  then Some st
  else
    match fuel with
    | O => None
    | S fuel' => loop fuel' num_episodes num_steps (loop_body st)
    end.

Definition run (fuel : nat) (env : environment)
    (num_episodes num_steps : option Z) : run_result environment :=
  match num_episodes, num_steps with
  | Some _, Some _ => ValueError
  | _, _ =>
      match loop fuel num_episodes num_steps
              {| _environment := env; episode_count := 0; step_count := 0;
                 written := []; logged := [] |} with
      | Some st => Finished st
      | None => Running
      end
  end.

End Run.

Arguments loop_body {environment} run_episode st.
Arguments loop {environment} run_episode fuel num_episodes num_steps st.
Arguments run {environment} run_episode fuel env num_episodes num_steps.

End EnvLoopD4PG.

(** ** Learner: [get_variables], [get_first_available_accelerator_type] and
       the joint action of [_step] *)

Module LearnerServing.
Import Learner.

Local Open Scope string_scope.

(** A dictionary lookup [d[name]] raises [KeyError] on a missing key. *)
Inductive lookup (A : Type) : Type :=
| Found (a : A)
| KeyError (name : string).
Arguments Found {A} a.
Arguments KeyError {A} name.

Fixpoint getitem {A : Type} (d : list (string * A)) (name : string)
  : lookup A :=
  match d with
  | [] => KeyError name
  | (key, value) :: d' =>
      if String.eqb key name then Found value else getitem d' name
  end.

Section Variables.

Variable tensor : Type.
Variable sample : Type.

(** [self._variables]: the tuples hold the variables of the target networks
    themselves, so that a lookup reads their current values;
    [snt.Sequential([observation, policy]).variables] lists the variables of
    the observation network, then those of the policy network.  The
    networks have their variables when the learner is made. *)
Definition _variables (self : learner tensor sample)
  : list (string * list tensor) :=
  [("vehicle_critic", vehicle_critic_network (target self));
   ("vehicle_policy",
    (vehicle_observation_network (target self) ++
     vehicle_policy_network (target self))%list);
   ("edge_critic", edge_critic_network (target self));
   ("edge_policy",
    (edge_observation_network (target self) ++
     edge_policy_network (target self))%list)].

(** [[tf2_utils.to_numpy(self._variables[name]) for name in names]] *)
Fixpoint get_variables (self : learner tensor sample) (names : list string)
  : lookup (list (list tensor)) :=
  match names with
  | [] => Found []
  | name :: names' =>
      match getitem (_variables self) name with
      | KeyError missing => KeyError missing
      | Found value =>
          match get_variables self names' with
          | KeyError missing => KeyError missing
          | Found values => Found (value :: values)
          end
      end
  end.

End Variables.

Arguments _variables {tensor sample} self.
Arguments get_variables {tensor sample} self names.

Section Accelerators.

(** [tf.config.get_visible_devices(device_type=...)] *)
Variable device : Type.
Variable get_visible_devices : string -> list device.

Inductive accelerator : Type :=
| Returned (wishlist_device : string)
| RuntimeError.

Fixpoint get_first_available_accelerator_type (wishlist : list string)
  : accelerator :=
  match wishlist with
  | [] => RuntimeError
  | wishlist_device :: wishlist' =>
      match get_visible_devices wishlist_device with
      | [] => get_first_available_accelerator_type wishlist'
      | _ :: _ => Returned wishlist_device
      end
  end.

(** The default [wishlist]. *)
Definition default_wishlist : list string := ["TPU"; "GPU"; "CPU"].

End Accelerators.

Arguments get_first_available_accelerator_type {device} get_visible_devices
  wishlist.

Section JointAction.

(** A tensor of shape [[batch_size, k * vehicle_action_size]] is the list of
    its [k] blocks of [vehicle_action_size] columns, and [tf.concat] along
    axis 1 appends the blocks.  [target_action i] is
    [tf.reshape(vehicles_a_t, shape=[batch_size, self._vehicle_number,
    self._vehicle_action_size])[:, i, :]], and [online_action] is
    [self._vehicle_policy_network(o_t)]. *)
Variable block : Type.
Variable target_action : nat -> block.
Variable online_action : block.

(** The value of [dpg_a_t] given to the critic for the vehicle
    [vehicle_index]. *)
Definition dpg_a_t (_vehicle_number vehicle_index : nat) : list block :=
  let dpg_a_t :=
    if Nat.eqb vehicle_index 0 then [online_action] else [target_action 0] in
  fold_left
    (fun dpg_a_t i =>
       if negb (Nat.eqb i 0) && negb (Nat.eqb i vehicle_index)
       then (dpg_a_t ++ [target_action i])%list
       else if negb (Nat.eqb i 0) && Nat.eqb i vehicle_index
       then (dpg_a_t ++ [online_action])%list
       else dpg_a_t)
    (range _vehicle_number) dpg_a_t.

(** [tf.reshape(vehicles_a_t, shape=[batch_size, -1])], the joint action of
    the target policies. *)
Definition vehicles_a_t (_vehicle_number : nat) : list block :=
  map target_action (range _vehicle_number).

End JointAction.

Arguments dpg_a_t {block} target_action online_action _vehicle_number
  vehicle_index.
Arguments vehicles_a_t {block} target_action _vehicle_number.

End LearnerServing.

(** ** One episode: [EnvironmentLoop.run_episode] *)

Module Episode.

Local Open Scope Q_scope.

(** The nine numbers that [self._environment.step] returns beside the
    timestep, which are also the accumulators of [run_episode]. *)
Inductive quantity : Type :=
| cumulative_aov
| cumulative_cost
| average_aov
| average_cost
| average_timeliness
| average_consistency
| average_redundancy
| average_sensing_cost
| average_transmission_cost.

Definition quantity_eqb (p q : quantity) : bool :=
  match p, q with
  | cumulative_aov, cumulative_aov
  | cumulative_cost, cumulative_cost
  | average_aov, average_aov
  | average_cost, average_cost
  | average_timeliness, average_timeliness
  | average_consistency, average_consistency
  | average_redundancy, average_redundancy
  | average_sensing_cost, average_sensing_cost
  | average_transmission_cost, average_transmission_cost => true
  | _, _ => false
  end.

(** The accumulators divided by [episode_steps] after the loop, in the
    order of the source. *)
Definition averaged : list quantity :=
  [average_aov; average_cost; average_timeliness; average_consistency;
   average_redundancy; average_sensing_cost; average_transmission_cost].

(** [a / b] on Python numbers. *)
Definition truediv (a b : Q) : result Q :=
  if Qeq_bool b 0 then Raise ZeroDivisionError else Ok (a / b).

(** [x /= episode_steps] for the accumulator [x] of [q]. *)
Definition divide (episode_steps : Q) (q : quantity)
    (accumulators : quantity -> Q) : result (quantity -> Q) :=
  do value <- truediv (accumulators q) episode_steps ;
  Ok (fun p => if quantity_eqb p q then value else accumulators p).

Section RunEpisode.

(** Everything the loop acts on (the environment, the actor, the observers,
    the counter and the clock) is one state [world]; the calls into it
    are parameters. *)
Variable world : Type.
Variable timestep : Type.
Variable action : Type.
Variable reward : Type.

(** [time.time()] *)
Variable time : world -> Q.
(** [self._environment.reset()] *)
Variable reset : world -> world * timestep.
(** [self._actor.observe_first(timestep)], then [observer.observe_first]
    for every observer *)
Variable observe_first : timestep -> world -> world.
(** [timestep.last()] *)
Variable last : timestep -> bool.
(** [self._actor.select_action(timestep.observation,
    timestep.vehicle_observation)] *)
Variable select_action : timestep -> world -> world * action.
(** [self._environment.step(action)] *)
Variable step : action -> world -> world * (timestep * (quantity -> Q)).
(** [self._actor.observe(action=action, next_timestep=timestep)], then
    [observer.observe] for every observer *)
Variable observe : action -> timestep -> world -> world.
(** [self._actor.update()] *)
Variable update : world -> world.
(** [self._counter.increment(episodes=1, steps=episode_steps)] *)
Variable increment : Z -> world -> world.
(** [_generate_zeros_from_spec] over the reward spec, and
    [tree.map_structure(operator.iadd, episode_return, timestep.reward)] *)
Variable zeros : reward.
Variable iadd : reward -> timestep -> reward.

Variable _label : string.
Variable _should_update : bool.

(** The variables of the [while] loop. *)
Record loop_vars : Type := {
  the_world : world;
  the_timestep : timestep;
  episode_steps : Z;
  episode_return : reward;
  accumulators : quantity -> Q
}.

(** The body of [while not timestep.last()]. *)
Definition loop_body (vars : loop_vars) : loop_vars :=
  let '(w, action) := select_action (the_timestep vars) (the_world vars) in
  let '(w, (timestep, values)) := step action w in
  let accumulators := fun q => accumulators vars q + values q in
  let w := observe action timestep w in
  let w := if _should_update then update w else w in
  {| the_world := w;
     the_timestep := timestep;
     episode_steps := episode_steps vars + 1;
     episode_return := iadd (episode_return vars) timestep;
     accumulators := accumulators |}.

(** The [while] loop, for at most [fuel] passes. *)
Fixpoint loop (fuel : nat) (vars : loop_vars) : option loop_vars :=
  if last (the_timestep vars) then Some vars
  else
    match fuel with
    | O => None
    | S fuel' => loop fuel' (loop_body vars)
    end.

(** The entries of [result] that [run_episode] computes; the counts and the
    metrics of the observers are merged into the dictionary afterwards. *)
Record logging_data : Type := {
  label : string;
  episode_length : Z;
  result_episode_return : reward;
  steps_per_second : Q;
  logged_quantity : quantity -> Q
}.

Definition run_episode (fuel : nat) (w : world)
  : option (world * result logging_data) :=
  let start_time := time w in
  let '(w, timestep) := reset w in
  let w := observe_first timestep w in
  match loop fuel {| the_world := w; the_timestep := timestep;
                     episode_steps := 0; episode_return := zeros;
                     accumulators := fun _ => 0 |} with
  | None => None
  | Some vars =>
      let w := increment (episode_steps vars) (the_world vars) in
      Some
        (w,
         do steps_per_second <-
           truediv (inject_Z (episode_steps vars)) (time w - start_time) ;
         do accumulators <-
           for_each averaged (divide (inject_Z (episode_steps vars)))
             (accumulators vars) ;
         Ok {| label := _label;
               episode_length := episode_steps vars;
               result_episode_return := episode_return vars;
               steps_per_second := steps_per_second;
               logged_quantity := accumulators |})
  end.

End RunEpisode.

Arguments the_world {world timestep reward} vars : rename.
Arguments the_timestep {world timestep reward} vars : rename.
Arguments episode_steps {world timestep reward} vars : rename.
Arguments episode_return {world timestep reward} vars : rename.
Arguments accumulators {world timestep reward} vars : rename.
Arguments label {reward} data : rename.
Arguments episode_length {reward} data : rename.
Arguments result_episode_return {reward} data : rename.
Arguments steps_per_second {reward} data : rename.
Arguments logged_quantity {reward} data : rename.
Arguments loop_body {world timestep action reward} select_action step observe
  update iadd _should_update vars.
Arguments loop {world timestep action reward} last select_action step observe
  update iadd _should_update fuel vars.
Arguments run_episode {world timestep action reward} time reset observe_first
  last select_action step observe update increment zeros iadd _label
  _should_update fuel w.

End Episode.

(** * Properties *)

(** ** Queuing model *)

Module QueuingProofs.
Import Queuing.
Open Scope Q_scope.

(** *** The loops over [self._sensed_information_number] *)

Lemma get_sensed_information_type_raises (n : nat) (sensed : list Z)
    (v : vehicle) :
  get_sensed_information_type n sensed v = Raise TypeError.
Proof. reflexivity. Qed.

Lemma init_raises (v : vehicle) (va : vehicleAction) :
  init v va = Raise TypeError.
Proof.
  unfold init. rewrite get_sensed_information_type_raises. reflexivity.
Qed.

Lemma build_action_list_raises (self : state) :
  build_action_list self = Raise TypeError.
Proof. reflexivity. Qed.

Lemma assign_by_type_raises (self : state) (data_type : Z) (value : float)
    (queuing_times : list float) :
  assign_by_type self data_type value queuing_times = Raise TypeError.
Proof. reflexivity. Qed.

Section Raises.

Variable mean_service_time : Z -> Z -> Q.
Variable second_moment_service_time : Z -> Z -> Q.

Lemma compute_queuing_times_raises (self : state) :
  compute_queuing_times mean_service_time second_moment_service_time self
  = Raise TypeError.
Proof.
  unfold compute_queuing_times. rewrite build_action_list_raises.
  reflexivity.
Qed.

Lemma queuing_times_raises (v : vehicle) (va : vehicleAction) :
  queuing_times mean_service_time second_moment_service_time v va
  = Raise TypeError.
Proof. unfold queuing_times. rewrite init_raises. reflexivity. Qed.

End Raises.

(** *** Concrete inputs *)

(** Two slots, both sensed, the first of higher priority, information types
    5 and 7. *)
Definition vehicle_2 : vehicle :=
  {| vehicle_no := 0;
     sensed_information_number := 2;
     information_canbe_sensed := [5; 7]%Z |}.

Definition action_2 : vehicleAction :=
  {| action_time := 1;
     sensed_information := [1; 1]%Z;
     sensing_frequencies := [1; 1];
     uploading_priorities := [2; 1];
     transmission_power := 1 |}.

(** The attributes that [__init__] is written to set for [vehicle_2] and
    [action_2]. *)
Definition state_2 : state :=
  {| _vehicle_no := 0;
     _sensed_information_number := 2;
     _sensed_information := [1; 1]%Z;
     _sensing_frequencies := [1; 1];
     _uploading_priorities := [2; 1];
     _sensed_information_type := [5; 7]%Z |}.

(** Service times with [E[S] = 1/4] and [E[S^2] = 1/8] for every type. *)
Definition mst_quarter (vno ty : Z) : Q := 1 # 4.
Definition smst_eighth (vno ty : Z) : Q := 1 # 8.

(** Service times with [E[S] = 3/2] for type 5 and [1/2] for the others. *)
Definition mst_heavy (vno ty : Z) : Q := if (ty =? 5)%Z then 3 # 2 else 1 # 2.
Definition smst_one (vno ty : Z) : Q := 1.

(** The cumulative workload of the spec over all the sensed slots, which is
    the workload [rho_k] of the sensed item of lowest priority: the sum of
    [lambda_j * E[S_j]]. *)
Definition spec_workload (mean_service_time : Z -> Z -> Q) (self : state) : Q :=
  fold_right Qplus 0
    (map
       (fun i =>
          match _sensed_information self !! i,
                _sensing_frequencies self !! i,
                _sensed_information_type self !! i with
          | Some s, Some f, Some t =>
              if (s =? 1)%Z
              then f * mean_service_time (_vehicle_no self) t
              else 0
          | _, _, _ => 0
          end)
       (range (_sensed_information_number self))).

(** *** Claims on the queuing model *)

(** C1.  No queuing delay is assigned to any item: for every vehicle and
    action the constructor raises [TypeError] at the loop of
    [get_sensed_information_type], and on every instance
    [compute_queuing_times] raises [TypeError] at its first loop, before the
    sort and before the expression of the delay; so it is for two sensed
    slots with sensing frequency 1 and service times [E[S] = 1/4],
    [E[S^2] = 1/8], where the claim puts [W_1 = 3/4] in the second slot. *)
Theorem compute_queuing_times_assigns_no_queuing_delay
    (mean_service_time second_moment_service_time : Z -> Z -> Q)
    (v : vehicle) (va : vehicleAction) (self : state) :
  queuing_times mean_service_time second_moment_service_time v va
  = Raise TypeError /\
  compute_queuing_times mean_service_time second_moment_service_time self
  = Raise TypeError /\
  queuing_times mst_quarter smst_eighth vehicle_2 action_2 = Raise TypeError /\
  compute_queuing_times mst_quarter smst_eighth state_2 = Raise TypeError.
Proof.
  repeat split;
    first [apply queuing_times_raises | apply compute_queuing_times_raises].
Qed.

(** C2 (as amended).  [compute_queuing_times] surfaces no error of its
    own on any input, whatever the workload: what it raises is never an
    exception raised by the program itself. *)
Theorem compute_queuing_times_has_no_stability_check
    (mean_service_time second_moment_service_time : Z -> Z -> Q)
    (v : vehicle) (va : vehicleAction) (self : state) (message : string) :
  compute_queuing_times mean_service_time second_moment_service_time self
  <> Raise (Exception message) /\
  queuing_times mean_service_time second_moment_service_time v va
  <> Raise (Exception message).
Proof.
  rewrite compute_queuing_times_raises, queuing_times_raises.
  split; discriminate.
Qed.

(** Counterexample to C2 as stated: with a cumulative workload of 2 the
    call raises the [TypeError] of its first loop, which is no error about
    the queue. *)
Lemma compute_queuing_times_unstable_counterexample :
  1 <= spec_workload mst_heavy state_2 /\
  queuing_times mst_heavy smst_one vehicle_2 action_2 = Raise TypeError /\
  compute_queuing_times mst_heavy smst_one state_2 = Raise TypeError /\
  ~ (exists message,
       compute_queuing_times mst_heavy smst_one state_2
       = Raise (Exception message)).
Proof.
  split; [vm_compute; discriminate|].
  rewrite compute_queuing_times_raises, queuing_times_raises.
  split; [reflexivity|]. split; [reflexivity|].
  intros [message H]. discriminate H.
Qed.

(** C9.  The sensed slots are never sorted and the head of the line is
    never assigned: the loop that collects the sensed slots raises
    [TypeError], and so does the loop that writes a queuing time; so it is
    for the two sensed slots of [state_2], of priorities 2 and 1. *)
Theorem head_of_line_is_never_assigned (self : state) (data_type : Z)
    (value : float) (queuing_times : list float) :
  build_action_list self = Raise TypeError /\
  assign_by_type self data_type value queuing_times = Raise TypeError /\
  build_action_list state_2 = Raise TypeError /\
  compute_queuing_times mst_quarter smst_eighth state_2 = Raise TypeError.
Proof.
  split; [apply build_action_list_raises|].
  split; [apply assign_by_type_raises|].
  split; [apply build_action_list_raises | apply compute_queuing_times_raises].
Qed.

End QueuingProofs.

(** ** Transmission model *)

Module TransmissionProofs.
Import Transmission.
Open Scope R_scope.

(** *** Unit conversions *)

Lemma cover_dBm_to_W_pos (dBm : R) : 0 < cover_dBm_to_W dBm.
Proof.
  unfold cover_dBm_to_W, Rpower.
  apply Rdiv_lt_0_compat; [apply exp_pos | lra].
Qed.

Lemma cover_dBm_to_W_0 : cover_dBm_to_W (IZR 0) = 1 / 1000.
Proof.
  unfold cover_dBm_to_W. replace (IZR 0 / 10) with 0 by lra.
  rewrite Rpower_O by lra. reflexivity.
Qed.

Lemma int_IZR (z : Z) : int (IZR z) = z.
Proof.
  unfold int. destruct (Rle_dec 0 (IZR z)) as [H|H].
  - symmetry. apply Int_part_spec. lra.
  - rewrite <- opp_IZR.
    rewrite <- (Int_part_spec (IZR (- z)) (- z)%Z); [lia | lra].
Qed.

Lemma log2_1 : log2 1 = 0.
Proof. unfold log2. rewrite ln_1. lra. Qed.

Lemma log2_2 : log2 2 = 1.
Proof.
  unfold log2. apply Rinv_r.
  assert (0 < ln 2) by (rewrite <- ln_1; apply ln_increasing; lra). lra.
Qed.

(** *** [compute_SNR] *)

(** The SNR is the transmission power times a coefficient that does not
    depend on it. *)
Definition SNR_per_watt (white_gaussian_noise : Z) (channel_fading_gain : R)
    (distance : R) (path_loss_exponent : Z) : R :=
  / cover_dBm_to_W (IZR white_gaussian_noise) * Rabs channel_fading_gain ^ 2
  * / powerRZ distance path_loss_exponent.

Lemma compute_SNR_linear (n : Z) (g d : R) (ple : Z) (p : R) :
  compute_SNR n g d ple p = SNR_per_watt n g d ple * (p / 1000).
Proof.
  unfold compute_SNR, SNR_per_watt, cover_mW_to_W.
  replace 1.0 with 1 by lra. unfold Rdiv. ring.
Qed.

Lemma powerRZ_incr (d1 d2 : R) (ple : Z) :
  (0 < ple)%Z -> 0 < d1 -> d1 <= d2 -> powerRZ d1 ple <= powerRZ d2 ple.
Proof.
  intros Hple H1 H12. destruct ple as [|e|e]; try lia.
  simpl. apply pow_incr. lra.
Qed.

Lemma pow_strict_incr (x y : R) (n : nat) :
  0 < x -> x < y -> (0 < n)%nat -> x ^ n < y ^ n.
Proof.
  intros Hx Hxy Hn. induction n as [|n IH]; [lia|].
  destruct n as [|n].
  - simpl. lra.
  - assert (H : x ^ S n < y ^ S n) by (apply IH; lia).
    assert (Hp : 0 < x ^ S n) by (apply pow_lt, Hx).
    change (x * x ^ S n < y * y ^ S n). nra.
Qed.

Lemma powerRZ_strict_incr (d1 d2 : R) (ple : Z) :
  (0 < ple)%Z -> 0 < d1 -> d1 < d2 -> powerRZ d1 ple < powerRZ d2 ple.
Proof.
  intros Hple H1 H12. destruct ple as [|e|e]; try lia.
  simpl. apply pow_strict_incr; [lra | lra | lia].
Qed.

Lemma SNR_per_watt_nonneg (n : Z) (g d : R) (ple : Z) :
  0 < d -> 0 <= SNR_per_watt n g d ple.
Proof.
  intros Hd. unfold SNR_per_watt.
  apply Rmult_le_pos; [apply Rmult_le_pos|].
  - apply Rlt_le, Rinv_0_lt_compat, cover_dBm_to_W_pos.
  - apply pow2_ge_0.
  - apply Rlt_le, Rinv_0_lt_compat, powerRZ_lt, Hd.
Qed.


Lemma SNR_per_watt_pos (n : Z) (g d : R) (ple : Z) :
  0 < d -> g <> 0 -> 0 < SNR_per_watt n g d ple.
Proof.
  intros Hd Hg. unfold SNR_per_watt.
  apply Rmult_lt_0_compat; [apply Rmult_lt_0_compat|].
  - apply Rinv_0_lt_compat, cover_dBm_to_W_pos.
  - apply pow_lt, Rabs_pos_lt, Hg.
  - apply Rinv_0_lt_compat, powerRZ_lt, Hd.
Qed.

Lemma SNR_per_watt_decr (n : Z) (g : R) (ple : Z) (d1 d2 : R) :
  (0 < ple)%Z -> 0 < d1 -> d1 <= d2 ->
  SNR_per_watt n g d2 ple <= SNR_per_watt n g d1 ple.
Proof.
  intros Hple H1 H12. unfold SNR_per_watt.
  apply Rmult_le_compat_l.
  - apply Rmult_le_pos; [|apply pow2_ge_0].
    apply Rlt_le, Rinv_0_lt_compat, cover_dBm_to_W_pos.
  - apply Rinv_le_contravar; [apply powerRZ_lt, H1|].
    apply powerRZ_incr; assumption.
Qed.

Lemma SNR_per_watt_strict_decr (n : Z) (g : R) (ple : Z) (d1 d2 : R) :
  (0 < ple)%Z -> g <> 0 -> 0 < d1 -> d1 < d2 ->
  SNR_per_watt n g d2 ple < SNR_per_watt n g d1 ple.
Proof.
  intros Hple Hg H1 H12. unfold SNR_per_watt.
  apply Rmult_lt_compat_l.
  - apply Rmult_lt_0_compat; [|apply pow_lt, Rabs_pos_lt, Hg].
    apply Rinv_0_lt_compat, cover_dBm_to_W_pos.
  - apply Rinv_lt_contravar.
    + apply Rmult_lt_0_compat; apply powerRZ_lt; lra.
    + apply powerRZ_strict_incr; assumption.
Qed.

(** C7 (as amended).  [compute_SNR] is the transmission power in W over the
    noise in W, times [|fading_gain|^2], over [distance^path_loss_exponent].
    For a positive path-loss exponent and positive distances it is
    monotonically increasing in the transmission power, and for a
    non-negative transmission power it is monotonically decreasing in the
    distance; both are strict for a non-zero fading gain (and a positive
    power, for the distance). *)
Theorem compute_SNR_formula_and_monotonicity
    (white_gaussian_noise : Z) (channel_fading_gain : R)
    (path_loss_exponent : Z) (d1 d2 p1 p2 : R) :
  (0 < path_loss_exponent)%Z ->
  0 < d1 -> d1 <= d2 ->
  p1 <= p2 ->
  let SNR := compute_SNR white_gaussian_noise channel_fading_gain in
  SNR d1 path_loss_exponent p1 =
    cover_mW_to_W p1 / cover_dBm_to_W (IZR white_gaussian_noise)
    * Rabs channel_fading_gain ^ 2 / powerRZ d1 path_loss_exponent /\
  SNR d1 path_loss_exponent p1 <= SNR d1 path_loss_exponent p2 /\
  (0 <= p1 -> SNR d2 path_loss_exponent p1 <= SNR d1 path_loss_exponent p1) /\
  (channel_fading_gain <> 0 -> p1 < p2 ->
   SNR d1 path_loss_exponent p1 < SNR d1 path_loss_exponent p2) /\
  (channel_fading_gain <> 0 -> 0 < p1 -> d1 < d2 ->
   SNR d2 path_loss_exponent p1 < SNR d1 path_loss_exponent p1).
Proof.
  intros Hple Hd1 Hd12 Hp12 SNR. unfold SNR. clear SNR.
  rewrite !compute_SNR_linear.
  pose proof (SNR_per_watt_nonneg white_gaussian_noise channel_fading_gain d1
                path_loss_exponent Hd1) as Hc1.
  pose proof (SNR_per_watt_decr white_gaussian_noise channel_fading_gain
                path_loss_exponent d1 d2 Hple Hd1 Hd12) as Hdec.
  split; [|split; [|split; [|split]]].
  - unfold SNR_per_watt, cover_mW_to_W, Rdiv. ring.
  - apply Rmult_le_compat_l; [exact Hc1 | lra].
  - intros Hp1. apply Rmult_le_compat_r; [lra | exact Hdec].
  - intros Hg Hlt. apply Rmult_lt_compat_l; [|lra].
    apply SNR_per_watt_pos; assumption.
  - intros Hg Hp1 Hlt. apply Rmult_lt_compat_r; [lra|].
    apply SNR_per_watt_strict_decr; assumption.
Qed.

(** Witness of C7 (as amended): noise 0 dBm, gain 1, exponent 3, distances
    1 and 2, powers 10 and 20 mW. *)
Lemma compute_SNR_formula_and_monotonicity_witness :
  compute_SNR 0 1 1 3 10 =
    cover_mW_to_W 10 / cover_dBm_to_W (IZR 0) * Rabs 1 ^ 2 / powerRZ 1 3 /\
  compute_SNR 0 1 1 3 10 <= compute_SNR 0 1 1 3 20 /\
  (0 <= 10 -> compute_SNR 0 1 2 3 10 <= compute_SNR 0 1 1 3 10) /\
  (1 <> 0 -> 10 < 20 -> compute_SNR 0 1 1 3 10 < compute_SNR 0 1 1 3 20) /\
  (1 <> 0 -> 0 < 10 -> 1 < 2 ->
   compute_SNR 0 1 2 3 10 < compute_SNR 0 1 1 3 10).
Proof.
  apply (compute_SNR_formula_and_monotonicity 0 1 3 1 2 10 20); [lia | lra ..].
Defined.

(** Counterexample to C7 as stated: with a transmission power of -1000 mW
    (noise 0 dBm, gain 1, exponent 1) the SNR is -1000 at distance 1 and
    -500 at distance 2, so it increases with the distance. *)
Lemma compute_SNR_distance_counterexample :
  compute_SNR 0 1 1 1 (-1000) = -1000 /\
  compute_SNR 0 1 2 1 (-1000) = -500 /\
  (0 < 1)%Z /\ 0 < 1 <= 2 /\
  ~ compute_SNR 0 1 2 1 (-1000) <= compute_SNR 0 1 1 1 (-1000).
Proof.
  assert (H1 : compute_SNR 0 1 1 1 (-1000) = -1000).
  { unfold compute_SNR, cover_mW_to_W. rewrite cover_dBm_to_W_0.
    rewrite Rabs_R1. simpl. lra. }
  assert (H2 : compute_SNR 0 1 2 1 (-1000) = -500).
  { unfold compute_SNR, cover_mW_to_W. rewrite cover_dBm_to_W_0.
    rewrite Rabs_R1. simpl. lra. }
  rewrite H1, H2. repeat split; try lia; lra.
Qed.

(** *** [compute_transmission_rate] *)

(** The rate as the specification words it: the bandwidth in Hz
    ([10^6] times the MHz argument) times [log2 (1 + SNR)], divided by 8,
    truncated. *)
Definition spec_transmission_rate (SNR bandwidth : R) : Z :=
  int (bandwidth * 10 ^ 6 * log2 (1 + SNR) / 8).

Lemma cover_MHz_to_Hz_factor (MHz : R) : cover_MHz_to_Hz MHz = MHz * 10 ^ 7.
Proof. unfold cover_MHz_to_Hz. lra. Qed.

Lemma compute_transmission_rate_SNR_0 (bandwidth : R) :
  compute_transmission_rate 0 bandwidth = 0%Z.
Proof.
  unfold compute_transmission_rate.
  replace (1 + 0) with 1 by lra. rewrite log2_1.
  replace (cover_MHz_to_Hz bandwidth * 0 / 8) with (IZR 0) by lra.
  apply int_IZR.
Qed.

(** C8.  At [SNR = 1] and a bandwidth of 1 MHz the code returns 1250000
    bytes per second: [cover_MHz_to_Hz] multiplies by [10e6], which is
    [10^7].  The rate of a bandwidth of [10^6] Hz is 125000. *)
Theorem compute_transmission_rate_at_1_MHz :
  compute_transmission_rate 1 1 = 1250000%Z /\
  spec_transmission_rate 1 1 = 125000%Z /\
  cover_MHz_to_Hz 1 = 10 ^ 7.
Proof.
  unfold compute_transmission_rate, spec_transmission_rate.
  replace (1 + 1) with 2 by lra. rewrite log2_2.
  split; [|split].
  - replace (cover_MHz_to_Hz 1 * 1 / 8) with (IZR 1250000)
      by (unfold cover_MHz_to_Hz; lra).
    apply int_IZR.
  - replace (1 * 10 ^ 6 * 1 / 8) with (IZR 125000) by lra.
    apply int_IZR.
  - unfold cover_MHz_to_Hz. lra.
Qed.

(** *** [compute_successful_tansmission_probability] and
        [get_minimum_transmission_power] *)

(** The call of [compute_SNR] passes [channel_fadding_gain], which is no
    parameter of it. *)
Lemma compute_SNR_call_raises {A : Type} (body : result A) :
  call compute_SNR_signature
    ["white_gaussian_noise"; "channel_fadding_gain"; "distance";
     "path_loss_exponent"; "transmission_power"]%string body
  = Raise TypeError.
Proof. reflexivity. Qed.

(** The call of [generate_channel_fading_gain] passes five keywords that
    are no parameters of it, and no value for [mean] and [second_moment]. *)
Lemma generate_channel_fading_gain_call_raises {A : Type} (body : result A) :
  call generate_channel_fading_gain_signature
    ["white_gaussian_noise"; "mean_channel_fading_gain";
     "second_moment_channel_fadding_gain"; "distance";
     "path_loss_exponent"; "size"]%string body
  = Raise TypeError.
Proof. reflexivity. Qed.

(** The estimate raises on the first draw of a sample. *)
Lemma success_probability_raises (white_gaussian_noise : Z)
    (channel_fading_gain : R) (channel_fading_gains : list R) (distance : R)
    (path_loss_exponent : Z) (transmission_power SNR_target : R) :
  compute_successful_tansmission_probability white_gaussian_noise
    (channel_fading_gain :: channel_fading_gains) distance path_loss_exponent
    transmission_power SNR_target
  = Raise TypeError.
Proof.
  unfold compute_successful_tansmission_probability. cbn [for_each].
  rewrite compute_SNR_call_raises. reflexivity.
Qed.

(** A generator whose draws all equal the mean, as [np.random.normal] does
    for scale 0. *)
Definition constant_normal (g : unit) (loc scale : R) (size : nat)
  : list R * unit :=
  (repeat loc size, g).

Section MinimumTransmissionPower.

Variable rng : Type.
Variable normal : rng -> R -> R -> nat -> list R * rng.

(** C6.  The search is never entered: for every input, and whatever the
    number of passes allowed to the loop (none included),
    [get_minimum_transmission_power] raises [TypeError] at the call of
    [generate_channel_fading_gain] that precedes the loop; no power is
    reduced and no probability is estimated.  So it is for noise -70 dBm,
    gains of mean 2, distance 300, exponent 3, power 10 mW, target 1 and
    threshold 0.9. *)
Theorem minimum_transmission_power_search_is_never_entered (fuel : nat)
    (g : rng) (white_gaussian_noise : Z)
    (mean_channel_fading_gain second_moment_channel_fadding_gain : R)
    (distance : R) (path_loss_exponent : Z)
    (transmission_power SNR_target probabiliity_threshold : R) :
  get_minimum_transmission_power rng normal fuel g white_gaussian_noise
    mean_channel_fading_gain second_moment_channel_fadding_gain distance
    path_loss_exponent transmission_power SNR_target probabiliity_threshold
  = (Some (Raise TypeError), g) /\
  get_minimum_transmission_power unit constant_normal 0 tt (-70) 2 0.4 300 3
    10 1 0.9
  = (Some (Raise TypeError), tt).
Proof.
  unfold get_minimum_transmission_power.
  rewrite !generate_channel_fading_gain_call_raises. split; reflexivity.
Qed.

(** C10.  No power is returned and no gain is drawn: for every input the
    result of [get_minimum_transmission_power] is not a power and the state
    of the generator is as before the call; and the estimate of the loop
    raises [TypeError] on every sample that has a draw, so that the loop,
    given a sample, returns no iterate either. *)
Theorem minimum_transmission_power_returns_no_power (fuel : nat)
    (g : rng) (white_gaussian_noise : Z)
    (mean_channel_fading_gain second_moment_channel_fadding_gain : R)
    (distance : R) (path_loss_exponent : Z)
    (transmission_power SNR_target probabiliity_threshold : R)
    (channel_fading_gain : R) (channel_fading_gains : list R) :
  (forall r,
     fst (get_minimum_transmission_power rng normal fuel g
            white_gaussian_noise mean_channel_fading_gain
            second_moment_channel_fadding_gain distance path_loss_exponent
            transmission_power SNR_target probabiliity_threshold)
     <> Some (Ok r)) /\
  snd (get_minimum_transmission_power rng normal fuel g
         white_gaussian_noise mean_channel_fading_gain
         second_moment_channel_fadding_gain distance path_loss_exponent
         transmission_power SNR_target probabiliity_threshold)
  = g /\
  compute_successful_tansmission_probability white_gaussian_noise
    (channel_fading_gain :: channel_fading_gains) distance path_loss_exponent
    transmission_power SNR_target
  = Raise TypeError /\
  search (S fuel) white_gaussian_noise
    (channel_fading_gain :: channel_fading_gains) distance path_loss_exponent
    SNR_target probabiliity_threshold transmission_power
  = Some (Raise TypeError).
Proof.
  unfold get_minimum_transmission_power.
  rewrite generate_channel_fading_gain_call_raises. cbn [fst snd].
  split; [intros r; discriminate|]. split; [reflexivity|].
  split; [apply success_probability_raises|].
  cbn [search]. rewrite success_probability_raises. reflexivity.
Qed.

End MinimumTransmissionPower.

End TransmissionProofs.

(** ** Learner *)

Module LearnerProofs.
Import Learner.

(** *** [average_gradients_across_replicas] *)

Section GradientsProofs.

Variable tensor : Type.
Variable reduce_mean : tensor -> tensor.

(** The loop that writes the reduced gradients back, started at offset
    [length done] of a partly filled result list. *)
Lemma reinsert_from (gradients : list (option tensor))
    (done : list (option tensor)) :
  fold_left
    (fun results '(ii, result) => <[ii := Some result]> results)
    (combine
       (omap (fun '(i, g) => match g with Some _ => Some i | None => None end)
          (combine (seq (length done) (length gradients)) gradients))
       (all_reduce_mean reduce_mean (without_nones gradients)))
    (done ++ replicate (length gradients) None)
  = done ++ map (option_map reduce_mean) gradients.
Proof.
  revert done. induction gradients as [|g gradients IH]; intros done;
    [reflexivity|].
  assert (Hshift :
    done ++ replicate (length (g :: gradients)) None =
    (done ++ [None]) ++ replicate (length gradients) None).
  { simpl. rewrite <- app_assoc. reflexivity. }
  destruct g as [x|]; simpl.
  - replace (<[length done := Some (reduce_mean x)]>
               (done ++ None :: replicate (length gradients) None))
      with ((done ++ [Some (reduce_mean x)])
            ++ replicate (length gradients) None).
    + specialize (IH (done ++ [Some (reduce_mean x)])).
      rewrite length_app in IH. simpl in IH.
      rewrite Nat.add_1_r in IH.
      etransitivity; [exact IH|]. rewrite <- app_assoc. reflexivity.
    + rewrite <- app_assoc. simpl.
      rewrite insert_app_r_alt by lia. rewrite Nat.sub_diag. reflexivity.
  - specialize (IH (done ++ [None])).
    rewrite length_app in IH. simpl in IH. rewrite Nat.add_1_r in IH.
    rewrite <- app_assoc in IH.
    etransitivity; [exact IH|]. rewrite <- app_assoc. reflexivity.
Qed.

Lemma average_gradients_across_replicas_map
    (gradients : list (option tensor)) :
  average_gradients_across_replicas reduce_mean gradients =
  map (option_map reduce_mean) gradients.
Proof.
  unfold average_gradients_across_replicas, indices_of_defined, enumerate.
  apply (reinsert_from gradients []).
Qed.

(** C4.  The output has the length of the input; an undefined entry stays
    undefined at its position; a defined entry is replaced at its position
    by its mean over the replicas; only the defined entries are passed to
    the reduction; and [[g0; None; g2]] becomes
    [[mean g0; None; mean g2]]. *)
Theorem average_gradients_preserve_none_positions
    (gradients : list (option tensor)) :
  length (average_gradients_across_replicas reduce_mean gradients)
  = length gradients /\
  (forall i,
     gradients !! i = Some None ->
     average_gradients_across_replicas reduce_mean gradients !! i
     = Some None) /\
  (forall i g,
     gradients !! i = Some (Some g) ->
     average_gradients_across_replicas reduce_mean gradients !! i
     = Some (Some (reduce_mean g))) /\
  (forall g, In g (without_nones gradients) <-> In (Some g) gradients) /\
  (forall g0 g2,
     average_gradients_across_replicas reduce_mean
       [Some g0; None; Some g2]
     = [Some (reduce_mean g0); None; Some (reduce_mean g2)]).
Proof.
  rewrite average_gradients_across_replicas_map.
  split; [apply length_map|].
  split; [|split; [|split]].
  - intros i Hi. change (map (option_map reduce_mean) gradients)
      with (option_map reduce_mean <$> gradients).
    rewrite list_lookup_fmap, Hi. reflexivity.
  - intros i g Hi. change (map (option_map reduce_mean) gradients)
      with (option_map reduce_mean <$> gradients).
    rewrite list_lookup_fmap, Hi. reflexivity.
  - intros g. unfold without_nones. rewrite <- !list_elem_of_In.
    rewrite list_elem_of_omap. split.
    + intros (og & Hog & Heq). subst og. exact Hog.
    + intros Hg. exists (Some g). split; [exact Hg | reflexivity].
  - intros g0 g2. reflexivity.
Qed.

End GradientsProofs.

(** Witness of C4: three integer gradients halved by the reduction. *)
Lemma average_gradients_preserve_none_positions_witness :
  average_gradients_across_replicas (fun g => g / 2)%Z
    [Some 4%Z; None; Some 10%Z] !! 1%nat = Some None /\
  average_gradients_across_replicas (fun g => g / 2)%Z
    [Some 4%Z; None; Some 10%Z] !! 2%nat = Some (Some 5%Z).
Proof.
  destruct (average_gradients_preserve_none_positions Z (fun g => g / 2)%Z
              [Some 4%Z; None; Some 10%Z]) as (_ & Hnone & Hsome & _).
  split; [apply Hnone; reflexivity | apply (Hsome 2%nat 10%Z); reflexivity].
Defined.

(** *** The target update of [_replicated_step] *)

Section TargetUpdateProofs.

Variable tensor : Type.
Variable sample : Type.
Variable fetches : Type.
Variable _step :
  sample -> networks tensor -> networks tensor -> networks tensor * fetches.
Variable reduce_mean_over_replicas : fetches -> fetches.

Abbreviation _replicated_step :=
  (_replicated_step _step reduce_mean_over_replicas).
Abbreviation steps := (steps _step reduce_mean_over_replicas).

(** Every network of [m] has as many variables as its counterpart in [n]. *)
Definition same_shape (n m : networks tensor) : Prop :=
  length (vehicle_observation_network n)
  = length (vehicle_observation_network m) /\
  length (vehicle_critic_network n)
  = length (vehicle_critic_network m) /\
  length (vehicle_policy_network n)
  = length (vehicle_policy_network m) /\
  length (edge_observation_network n)
  = length (edge_observation_network m) /\
  length (edge_critic_network n)
  = length (edge_critic_network m) /\
  length (edge_policy_network n)
  = length (edge_policy_network m).

Lemma same_shape_sym (n m : networks tensor) : same_shape n m -> same_shape m n.
Proof. unfold same_shape. intuition congruence. Qed.

Lemma same_shape_trans (n m o : networks tensor) :
  same_shape n m -> same_shape m o -> same_shape n o.
Proof. unfold same_shape. intuition congruence. Qed.

Lemma same_shape_variables (n m : networks tensor) :
  same_shape n m ->
  length (variables n) = length (variables m).
Proof.
  intros (H1 & H2 & H3 & H4 & H5 & H6). unfold variables.
  rewrite !length_app. lia.
Qed.

Lemma assign_all_length (srcs dests : list tensor) :
  length (assign_all srcs dests) = length dests.
Proof.
  revert dests. induction srcs as [|src srcs IH]; intros [|dest dests];
    simpl; try reflexivity. rewrite IH. reflexivity.
Qed.

Lemma assign_all_same_length (srcs dests : list tensor) :
  length srcs = length dests -> assign_all srcs dests = srcs.
Proof.
  revert dests. induction srcs as [|src srcs IH]; intros [|dest dests] H;
    simpl in *; try discriminate; try reflexivity.
  rewrite IH by lia. reflexivity.
Qed.

Lemma with_values_variables (n m : networks tensor) :
  same_shape n m -> with_values n (variables m) = m.
Proof.
  intros (H1 & H2 & H3 & H4 & H5 & H6). destruct m as [a b c d e f].
  unfold with_values, variables. simpl in *.
  rewrite H1, H2, H3, H4, H5.
  rewrite !drop_app_length, !take_app_length. reflexivity.
Qed.

(** With matching shapes the update copies every online variable. *)
Lemma update_target_copies (self : learner tensor sample) :
  same_shape (online self) (target self) ->
  (_num_steps self mod _target_update_period self
   = 0)%Z ->
  update_target self = online self.
Proof.
  intros Hshape Hmod. unfold update_target.
  apply Z.eqb_eq in Hmod. rewrite Hmod.
  rewrite assign_all_same_length by (apply same_shape_variables, Hshape).
  apply with_values_variables, same_shape_sym, Hshape.
Qed.

Lemma update_target_keeps (self : learner tensor sample) :
  (_num_steps self mod _target_update_period self
   <> 0)%Z ->
  update_target self = target self.
Proof.
  intros Hmod. unfold update_target.
  apply Z.eqb_neq in Hmod. rewrite Hmod. reflexivity.
Qed.

(** Case analysis along the branches of [_replicated_step]: a zero period,
    an exhausted iterator, or a sample and the pair that [_step] returns. *)
Ltac replicated_step_cases self :=
  unfold Learner._replicated_step;
  destruct (_target_update_period self =? 0)%Z eqn:?;
  [ | destruct (_iterator self) as [|? ?];
      [ | match goal with
          | |- context [_step ?s ?o ?t] => destruct (_step s o t)
          end ] ].

Lemma replicated_step_target (self : learner tensor sample) :
  (_target_update_period self <> 0)%Z ->
  target (fst (_replicated_step self))
  = update_target self.
Proof.
  intros Hp. apply Z.eqb_neq in Hp.
  replicated_step_cases self; [congruence | reflexivity ..].
Qed.

Lemma replicated_step_num_steps (self : learner tensor sample) :
  (_target_update_period self <> 0)%Z ->
  _num_steps (fst (_replicated_step self))
  = wrap_int32 (_num_steps self + 1).
Proof.
  intros Hp. apply Z.eqb_neq in Hp.
  replicated_step_cases self; [congruence | reflexivity ..].
Qed.

Lemma replicated_step_period (self : learner tensor sample) :
  _target_update_period (fst (_replicated_step self))
  = _target_update_period self.
Proof. replicated_step_cases self; reflexivity. Qed.

(** The forward pass of the step runs on the updated target. *)
Lemma replicated_step_online (self : learner tensor sample) (s : sample)
    (rest : list sample) :
  (_target_update_period self <> 0)%Z ->
  _iterator self = s :: rest ->
  online (fst (_replicated_step self))
  = fst (_step s (online self)
           (target (fst (_replicated_step self)))).
Proof.
  intros Hp Hit. rewrite replicated_step_target by exact Hp.
  unfold Learner._replicated_step.
  apply Z.eqb_neq in Hp. rewrite Hp, Hit.
  destruct (_step s (online self)
              (update_target self)). reflexivity.
Qed.

Lemma wrap_int32_small (z : Z) :
  (- 2 ^ 31 <= z < 2 ^ 31)%Z -> wrap_int32 z = z.
Proof.
  intros H. unfold wrap_int32. rewrite Z.mod_small by lia. lia.
Qed.

Lemma steps_period (k : nat) (self : learner tensor sample) :
  _target_update_period (steps k self)
  = _target_update_period self.
Proof.
  induction k as [|k IH]; [reflexivity|]. simpl.
  rewrite replicated_step_period. exact IH.
Qed.

Lemma steps_num_steps (k : nat) (self : learner tensor sample) :
  (_target_update_period self <> 0)%Z ->
  _num_steps self = 0%Z ->
  (Z.of_nat k < 2 ^ 31)%Z ->
  _num_steps (steps k self) = Z.of_nat k.
Proof.
  intros Hp H0 Hk. induction k as [|k IH]; [exact H0|]. simpl.
  rewrite replicated_step_num_steps by (rewrite steps_period; exact Hp).
  rewrite IH by lia. rewrite wrap_int32_small by lia. lia.
Qed.


(** The optimizers write values into the online variables; they neither
    create nor delete variables. *)
Hypothesis _step_keeps_shape :
  forall s o t, same_shape (fst (_step s o t)) o.

Lemma update_target_shape (self : learner tensor sample) :
  same_shape (online self) (target self) ->
  same_shape (update_target self) (online self).
Proof.
  intros Hshape.
  destruct (Z.eq_dec (_num_steps self mod _target_update_period self)%Z 0%Z)
    as [Hmod|Hmod].
  - rewrite update_target_copies by assumption. unfold same_shape. tauto.
  - rewrite update_target_keeps by assumption. apply same_shape_sym, Hshape.
Qed.

Lemma replicated_step_shape (self : learner tensor sample) :
  same_shape (online self) (target self) ->
  same_shape (online (fst (_replicated_step self)))
    (target (fst (_replicated_step self))).
Proof using _step_keeps_shape.
  intros Hshape. unfold Learner._replicated_step.
  destruct (_target_update_period self =? 0)%Z; [exact Hshape|].
  pose proof (update_target_shape self Hshape) as Hup.
  destruct (_iterator self) as [|s rest]; simpl.
  - apply same_shape_sym, Hup.
  - pose proof (_step_keeps_shape s (online self) (update_target self)) as Hk.
    destruct (_step s (online self) (update_target self)) as [o f]. simpl in *.
    eapply same_shape_trans; [exact Hk | apply same_shape_sym, Hup].
Qed.

Lemma steps_shape (k : nat) (self : learner tensor sample) :
  same_shape (online self) (target self) ->
  same_shape (online (steps k self)) (target (steps k self)).
Proof using _step_keeps_shape.
  intros Hshape. induction k as [|k IH]; [exact Hshape|].
  simpl. apply replicated_step_shape, IH.
Qed.

(** One step, whatever the value of the counter. *)
Lemma replicated_step_sync (self : learner tensor sample) :
  (_target_update_period self <> 0)%Z ->
  same_shape (online self) (target self) ->
  ((_num_steps self mod _target_update_period self = 0)%Z ->
   target (fst (_replicated_step self)) = online self) /\
  ((_num_steps self mod _target_update_period self <> 0)%Z ->
   target (fst (_replicated_step self)) = target self) /\
  (forall s rest,
     _iterator self = s :: rest ->
     online (fst (_replicated_step self))
     = fst (_step s (online self) (target (fst (_replicated_step self))))).
Proof.
  intros Hne Hshape. rewrite replicated_step_target by exact Hne.
  split; [|split].
  - intros Hmod. apply update_target_copies; assumption.
  - intros Hmod. apply update_target_keeps, Hmod.
  - intros s rest Hit. rewrite <- replicated_step_target by exact Hne.
    apply (replicated_step_online _ s rest); assumption.
Qed.

(** C3.  Let the target networks be shaped like the online ones and
    [target_update_period] be positive.  In a learner step, if
    [num_steps mod target_update_period = 0], each of the six target
    networks holds afterwards the variables of its online counterpart as
    they were before the step, in the declared order; otherwise the target
    networks are unchanged; and the forward pass of the step runs on the
    target networks as updated.  Counted from [num_steps = 0], step [k]
    (the call after [k] earlier calls, [k < 2^31]) finds [num_steps = k]:
    the targets change in the steps [k] with
    [k mod target_update_period = 0] only. *)
Theorem target_sync_every_period (self : learner tensor sample) (k : nat) :
  (0 < _target_update_period self)%Z ->
  same_shape (online self) (target self) ->
  (((_num_steps self mod _target_update_period self = 0)%Z ->
    target (fst (_replicated_step self)) = online self /\
    variables (target (fst (_replicated_step self)))
    = variables (online self)) /\
   ((_num_steps self mod _target_update_period self <> 0)%Z ->
    target (fst (_replicated_step self)) = target self) /\
   (forall s rest,
      _iterator self = s :: rest ->
      online (fst (_replicated_step self))
      = fst (_step s (online self) (target (fst (_replicated_step self))))))
  /\
  (_num_steps self = 0%Z ->
   (Z.of_nat k < 2 ^ 31)%Z ->
   _num_steps (steps k self) = Z.of_nat k /\
   steps (S k) self = fst (_replicated_step (steps k self)) /\
   ((Z.of_nat k mod _target_update_period self = 0)%Z ->
    target (steps (S k) self) = online (steps k self)) /\
   ((Z.of_nat k mod _target_update_period self <> 0)%Z ->
    target (steps (S k) self) = target (steps k self))).
Proof using _step_keeps_shape.
  intros Hp Hshape.
  assert (Hne : (_target_update_period self <> 0)%Z) by lia.
  split.
  - destruct (replicated_step_sync self Hne Hshape) as (Hcopy & Hkeep & Hfwd).
    split; [|split; assumption].
    intros Hmod. rewrite (Hcopy Hmod). split; reflexivity.
  - intros H0 Hk.
    assert (Hne' : (_target_update_period (steps k self) <> 0)%Z)
      by (rewrite steps_period; exact Hne).
    pose proof (steps_num_steps k self Hne H0 Hk) as Hn.
    destruct (replicated_step_sync (steps k self) Hne'
                (steps_shape k self Hshape)) as (Hcopy & Hkeep & _).
    rewrite Hn, steps_period in Hcopy, Hkeep.
    split; [exact Hn|]. split; [reflexivity|]. split; assumption.
Qed.

End TargetUpdateProofs.

(** *** A concrete learner with [target_update_period = 5] *)

Definition train (n : networks Z) : networks Z :=
  {| vehicle_observation_network := map Z.succ (vehicle_observation_network n);
     vehicle_critic_network := map Z.succ (vehicle_critic_network n);
     vehicle_policy_network := map Z.succ (vehicle_policy_network n);
     edge_observation_network := map Z.succ (edge_observation_network n);
     edge_critic_network := map Z.succ (edge_critic_network n);
     edge_policy_network := map Z.succ (edge_policy_network n) |}.

Definition train_step (s : unit) (online target : networks Z)
  : networks Z * unit :=
  (train online, tt).

Lemma train_step_keeps_shape (s : unit) (o t : networks Z) :
  same_shape Z (fst (train_step s o t)) o.
Proof. unfold same_shape. simpl. rewrite !length_map. tauto. Defined.

Definition learner_5 : learner Z unit :=
  {| online :=
       {| vehicle_observation_network := [1];
          vehicle_critic_network := [2; 3];
          vehicle_policy_network := [4];
          edge_observation_network := [];
          edge_critic_network := [5];
          edge_policy_network := [6] |}%Z;
     target :=
       {| vehicle_observation_network := [0];
          vehicle_critic_network := [0; 0];
          vehicle_policy_network := [0];
          edge_observation_network := [];
          edge_critic_network := [0];
          edge_policy_network := [0] |}%Z;
     _num_steps := 0;
     _target_update_period := 5;
     _iterator := repeat tt 20 |}.

(** The vehicle policy variable of the target after 0, 1, ..., 11 steps:
    it changes in steps 0, 5 and 10 only. *)
Example target_trace_period_5 :
  map (fun k => vehicle_policy_network
                  (target (steps train_step (fun f => f) k learner_5)))
    (seq 0 12)
  = [[0]; [4]; [4]; [4]; [4]; [4]; [9]; [9]; [9]; [9]; [9]; [14]]%Z.
Proof. vm_compute. reflexivity. Qed.

(** Witness of C3: step 5 of the learner with period 5 copies the online
    networks, and step 7 leaves the target networks unchanged. *)
Lemma target_sync_every_period_witness :
  target (steps train_step (fun f => f) 6 learner_5)
  = online (steps train_step (fun f => f) 5 learner_5) /\
  target (steps train_step (fun f => f) 8 learner_5)
  = target (steps train_step (fun f => f) 7 learner_5).
Proof.
  assert (Hshape : same_shape Z (online learner_5) (target learner_5))
    by (repeat split).
  split.
  - apply (target_sync_every_period Z unit unit train_step (fun f => f)
             train_step_keeps_shape learner_5 5 eq_refl Hshape);
      reflexivity.
  - apply (target_sync_every_period Z unit unit train_step (fun f => f)
             train_step_keeps_shape learner_5 7 eq_refl Hshape);
      [reflexivity | reflexivity | discriminate].
Defined.
End LearnerProofs.

(** ** Environment loop *)

Module EnvLoopProofs.
Import EnvLoop.
Open Scope string_scope.
Open Scope Z_scope.

Section RunProofs.

Variable environment : Type.
Variable run_episode : environment -> environment * Z.

(** A pass of the loop writes a snapshot exactly when the label is
    ['Evaluator_Loop'] and the cumulative step count is not a multiple of
    15000. *)
Lemma loop_body_written (label temple_environment : string)
    (st : loop_state environment) :
  written (loop_body run_episode label temple_environment st) =
  if negb (step_count (loop_body run_episode label temple_environment st)
           mod 15000 =? 0)
     && String.eqb label "Evaluator_Loop"
  then save_obj
         (_environment (loop_body run_episode label temple_environment st))
         temple_environment (written st)
  else written st.
Proof.
  unfold loop_body. destruct (run_episode (_environment st)). reflexivity.
Qed.

Lemma loop_body_step_count (label temple_environment : string)
    (st : loop_state environment) :
  step_count (loop_body run_episode label temple_environment st) =
  step_count st + snd (run_episode (_environment st)).
Proof.
  unfold loop_body. destruct (run_episode (_environment st)). reflexivity.
Qed.

(** Under any other label nothing is ever written. *)
Lemma other_label_never_writes (fuel : nat) (label temple_environment : string)
    (num_episodes num_steps : option Z) (st st' : loop_state environment) :
  label <> "Evaluator_Loop" ->
  loop run_episode fuel label temple_environment num_episodes num_steps st
  = Some st' ->
  written st' = written st.
Proof.
  intros Hlabel. revert st.
  induction fuel as [|fuel IH]; intros st H; simpl in H.
  - destruct (should_terminate num_episodes num_steps
                (episode_count st) (step_count st)); [|discriminate].
    injection H as <-. reflexivity.
  - destruct (should_terminate num_episodes num_steps
                (episode_count st) (step_count st)).
    + injection H as <-. reflexivity.
    + apply IH in H. rewrite H, loop_body_written.
      apply String.eqb_neq in Hlabel. rewrite Hlabel, andb_false_r.
      reflexivity.
Qed.

End RunProofs.

(** *** A concrete evaluator loop *)

(** The environment is a counter of the episodes run; every episode has
    [episode_length] steps. *)
Definition episodes_of (episode_length : Z) (env : Z) : Z * Z :=
  (env + 1, episode_length).

(** C5.  Under the label ['Evaluator_Loop'], three episodes of one step each
    write the snapshot three times, at the cumulative step counts 1, 2 and 3;
    one episode of 15000 steps writes nothing at the cumulative step count
    15000; under another label nothing is written. *)
Theorem run_saves_off_the_multiples_of_15000 :
  run (episodes_of 1) 3 "Evaluator_Loop" "temple_environment.pkl" 0
    (Some 3) None
  = Finished
      {| _environment := 3; episode_count := 3; step_count := 3;
         written := [("temple_environment.pkl", 3);
                     ("temple_environment.pkl", 2);
                     ("temple_environment.pkl", 1)];
         logged := [1; 1; 1] |} /\
  run (episodes_of 15000) 1 "Evaluator_Loop" "temple_environment.pkl" 0
    (Some 1) None
  = Finished
      {| _environment := 1; episode_count := 1; step_count := 15000;
         written := []; logged := [15000] |} /\
  run (episodes_of 1) 3 "environment_loop" "temple_environment.pkl" 0
    (Some 3) None
  = Finished
      {| _environment := 3; episode_count := 3; step_count := 3;
         written := []; logged := [1; 1; 1] |}.
Proof. repeat split; vm_compute; reflexivity. Qed.
End EnvLoopProofs.

(** * Further properties *)

(** ** More on the transmission model *)

Module TransmissionMore.
Import Transmission TransmissionProofs.
Open Scope R_scope.

(** *** [compute_transmission_rate] *)

Lemma Int_part_monotone (x y : R) : x <= y -> (Int_part x <= Int_part y)%Z.
Proof.
  intros Hxy.
  destruct (base_Int_part x) as [Hx1 Hx2].
  destruct (base_Int_part y) as [Hy1 Hy2].
  assert (H : IZR (Int_part x) < IZR (Int_part y + 1)).
  { rewrite plus_IZR. lra. }
  apply lt_IZR in H. lia.
Qed.

Lemma int_monotone (x y : R) : x <= y -> (int x <= int y)%Z.
Proof.
  intros Hxy. unfold int.
  destruct (Rle_dec 0 x) as [Hx|Hx]; destruct (Rle_dec 0 y) as [Hy|Hy].
  - apply Int_part_monotone, Hxy.
  - lra.
  - assert (H0 : Int_part 0 = 0%Z)
      by (symmetry; apply (Int_part_spec 0 0); lra).
    pose proof (Int_part_monotone 0 (- x) ltac:(lra)) as Hnx.
    pose proof (Int_part_monotone 0 y Hy) as Hpy.
    rewrite H0 in Hnx, Hpy. lia.
  - pose proof (Int_part_monotone (- y) (- x) ltac:(lra)). lia.
Qed.

Lemma log2_monotone (x y : R) : 0 < x -> x <= y -> log2 x <= log2 y.
Proof.
  intros Hx Hxy. unfold log2.
  assert (H2 : 0 < ln 2) by (rewrite <- ln_1; apply ln_increasing; lra).
  apply Rmult_le_compat_r; [apply Rlt_le, Rinv_0_lt_compat, H2|].
  destruct (Rle_lt_or_eq_dec x y Hxy) as [Hlt| ->]; [|lra].
  apply Rlt_le, ln_increasing; assumption.
Qed.

(** X10.  For a non-negative bandwidth the transmission rate does not
    decrease with the SNR, and it is not negative for a non-negative SNR. *)
Theorem compute_transmission_rate_monotone (bandwidth s1 s2 : R) :
  0 <= bandwidth ->
  0 <= s1 -> s1 <= s2 ->
  (0 <= compute_transmission_rate s1 bandwidth)%Z /\
  (compute_transmission_rate s1 bandwidth
   <= compute_transmission_rate s2 bandwidth)%Z.
Proof.
  intros Hb Hs1 Hs12. unfold compute_transmission_rate.
  assert (H0 : 0 <= log2 (1 + s1)).
  { rewrite <- log2_1. apply log2_monotone; lra. }
  assert (H1 : log2 (1 + s1) <= log2 (1 + s2)) by (apply log2_monotone; lra).
  assert (Hc : 0 <= cover_MHz_to_Hz bandwidth)
    by (rewrite cover_MHz_to_Hz_factor; nra).
  split.
  - rewrite <- (int_IZR 0) at 1. apply int_monotone.
    apply Rmult_le_pos; [apply Rmult_le_pos; assumption | lra].
  - apply int_monotone. apply Rmult_le_compat_r; [lra|].
    apply Rmult_le_compat_l; assumption.
Qed.

Lemma compute_transmission_rate_monotone_witness :
  (0 <= compute_transmission_rate 1 20)%Z /\
  (compute_transmission_rate 1 20 <= compute_transmission_rate 3 20)%Z.
Proof. apply (compute_transmission_rate_monotone 20 1 3); lra. Defined.

End TransmissionMore.

(** ** More on the environment loop and the saved files *)

Module EnvLoopMore.
Import EnvLoop FileOperator.

Open Scope string_scope.

(** *** Strings *)

Lemma length_append (s t : string) :
  String.length (s ++ t) = (String.length s + String.length t)%nat.
Proof. induction s as [|c s IH]; simpl; [reflexivity | rewrite IH; reflexivity]. Qed.

Lemma append_inv_head (p s t : string) : p ++ s = p ++ t -> s = t.
Proof.
  induction p as [|c p IH]; simpl; intros H; [exact H|].
  injection H as H. apply IH, H.
Qed.

(** The last four characters of a string are those of any suffix of it that
    has four characters or more. *)
Lemma last4_append (p s : string) :
  (4 <= String.length s)%nat -> last4 (p ++ s) = last4 s.
Proof.
  intros Hs. induction p as [|c p IH]; [reflexivity|].
  rewrite <- IH. unfold last4. simpl String.append.
  assert (Hlen : (4 <= String.length (p ++ s))%nat)
    by (rewrite length_append; lia).
  simpl String.length.
  replace (S (String.length (p ++ s)) - 4)%nat
    with (S (String.length (p ++ s) - 4)) by lia.
  reflexivity.
Qed.

(** The path at which [save_obj] writes. *)
Definition path_of (name : string) : string :=
  if String.eqb (last4 name) ".pkl" then name else name ++ ".pkl".

Lemma save_obj_path {environment : Type} (obj : environment) (name : string)
    (fs : files environment) :
  save_obj obj name fs = (path_of name, obj) :: fs.
Proof. reflexivity. Qed.

(** *** The names made by [init_file_name] and [init_policy_file_name] *)

Ltac distinct_names H :=
  repeat (apply append_inv_head in H); simpl in H; discriminate H.

Ltac no_dup_names :=
  repeat (apply List.NoDup_cons;
          [ let H := fresh in
            cbn [In]; intros H;
            repeat (destruct H as [H|H]); try exact H; distinct_names H
          | ]);
  apply List.NoDup_nil.

Ltac keeps_name :=
  unfold path_of;
  rewrite !last4_append by (rewrite ?length_append; simpl; lia);
  reflexivity.

(** X14.  The three paths of [init_file_name] and the four paths of
    [init_policy_file_name] end in [.pkl] and are pairwise distinct, whatever
    the clock and the uuid: [save_obj] writes at these very paths, and an
    object saved under one of them is not overwritten by a save under
    another. *)
Theorem init_file_names_distinct_pkl (dayTime hourTime uuid_str : string) :
  let f := init_file_name dayTime hourTime uuid_str in
  let p := init_policy_file_name dayTime hourTime uuid_str in
  List.Forall (fun name => path_of name = name)
    [init_environment_with_reward_matrix_name f;
     init_environment_without_reward_matrix_name f;
     temple_environment f;
     edge_policy_network p; vehicle_policy_network p;
     target_edge_policy_network p; target_vehicle_policy_network p] /\
  List.NoDup
    [init_environment_with_reward_matrix_name f;
     init_environment_without_reward_matrix_name f;
     temple_environment f] /\
  List.NoDup
    [edge_policy_network p; vehicle_policy_network p;
     target_edge_policy_network p; target_vehicle_policy_network p].
Proof.
  intros f p. subst f p. unfold init_file_name, init_policy_file_name.
  cbn [init_environment_with_reward_matrix_name
       init_environment_without_reward_matrix_name temple_environment
       edge_policy_network vehicle_policy_network
       target_edge_policy_network target_vehicle_policy_network].
  split; [|split].
  - repeat (apply List.Forall_cons; [keeps_name|]). apply List.Forall_nil.
  - no_dup_names.
  - no_dup_names.
Qed.

(** *** The run loop *)

Open Scope Z_scope.

(** The sum of the logged episode lengths. *)
Definition total_length (lengths : list Z) : Z := fold_right Z.add 0 lengths.

Section RunMore.

Variable environment : Type.
Variable run_episode : environment -> environment * Z.

Definition start (env : environment) : loop_state environment :=
  {| _environment := env; episode_count := 0; step_count := 0;
     written := []; logged := [] |}.

Lemma run_unfold (fuel : nat) (label temple_environment : string)
    (env : environment) (num_episodes num_steps : option Z) :
  run run_episode fuel label temple_environment env num_episodes num_steps =
  match num_episodes, num_steps with
  | Some _, Some _ => ValueError
  | _, _ =>
      match loop run_episode fuel label temple_environment num_episodes
              num_steps (start env) with
      | Some st => Finished st
      | None => Running
      end
  end.
Proof. reflexivity. Qed.

Lemma loop_body_episode_count (label temple_environment : string)
    (st : loop_state environment) :
  episode_count (loop_body run_episode label temple_environment st) =
  episode_count st + 1.
Proof.
  unfold loop_body. destruct (run_episode (_environment st)). reflexivity.
Qed.

Lemma loop_body_logged (label temple_environment : string)
    (st : loop_state environment) :
  logged (loop_body run_episode label temple_environment st) =
  snd (run_episode (_environment st)) :: logged st.
Proof.
  unfold loop_body. destruct (run_episode (_environment st)). reflexivity.
Qed.

Lemma loop_body_environment (label temple_environment : string)
    (st : loop_state environment) :
  _environment (loop_body run_episode label temple_environment st) =
  fst (run_episode (_environment st)).
Proof.
  unfold loop_body. destruct (run_episode (_environment st)). reflexivity.
Qed.

(** A property that holds at the start of the loop and is kept by every pass
    made while the loop condition holds, holds when the loop is left, where
    the condition fails. *)
Lemma loop_invariant (P : loop_state environment -> Prop) (fuel : nat)
    (label temple_environment : string) (num_episodes num_steps : option Z)
    (st st' : loop_state environment) :
  (forall s,
     P s ->
     should_terminate num_episodes num_steps (episode_count s) (step_count s)
     = false ->
     P (loop_body run_episode label temple_environment s)) ->
  P st ->
  loop run_episode fuel label temple_environment num_episodes num_steps st
  = Some st' ->
  P st' /\
  should_terminate num_episodes num_steps (episode_count st') (step_count st')
  = true.
Proof.
  intros Hstep. revert st. induction fuel as [|fuel IH]; intros st HP H;
    simpl in H;
    destruct (should_terminate num_episodes num_steps (episode_count st)
                (step_count st)) eqn:E.
  - injection H as <-. split; assumption.
  - discriminate.
  - injection H as <-. split; assumption.
  - apply (IH _ (Hstep st HP E) H).
Qed.

(** The loop bounded by a number of episodes makes exactly the missing
    passes. *)
Lemma loop_num_episodes (n : Z) (label temple_environment : string)
    (fuel : nat) (st : loop_state environment) :
  ((Z.to_nat (n - episode_count st) <= fuel)%nat ->
   exists st',
     loop run_episode fuel label temple_environment (Some n) None st
     = Some st' /\
     episode_count st' = Z.max (episode_count st) n /\
     length (logged st') =
     (length (logged st) + Z.to_nat (n - episode_count st))%nat) /\
  ((fuel < Z.to_nat (n - episode_count st))%nat ->
   loop run_episode fuel label temple_environment (Some n) None st = None).
Proof.
  revert st. induction fuel as [|fuel IH]; intros st; simpl;
    unfold should_terminate; rewrite orb_false_r;
    destruct (Z.geb_spec (episode_count st) n) as [Hge|Hlt].
  - split; [|lia]. intros _. exists st. repeat split; lia.
  - split; [lia|]. reflexivity.
  - split; [|lia]. intros _. exists st. repeat split; lia.
  - specialize (IH (loop_body run_episode label temple_environment st)).
    rewrite loop_body_episode_count, loop_body_logged in IH.
    destruct IH as [IH1 IH2]. split.
    + intros Hfuel. destruct IH1 as (st' & H1 & H2 & H3); [lia|].
      exists st'. split; [exact H1|]. simpl in H3. split; lia.
    + intros Hfuel. apply IH2. lia.
Qed.

(** X15.  With [num_episodes = n] and no bound on the steps, the loop runs
    exactly [n] episodes (none for [n <= 0]): it has terminated after [n]
    passes with [n] logged results, and not before. *)
Theorem run_num_episodes_exact (fuel : nat) (label temple_environment : string)
    (env : environment) (n : Z) :
  ((Z.to_nat n <= fuel)%nat ->
   exists st,
     run run_episode fuel label temple_environment env (Some n) None
     = Finished st /\
     episode_count st = Z.max 0 n /\
     length (logged st) = Z.to_nat n) /\
  ((fuel < Z.to_nat n)%nat ->
   run run_episode fuel label temple_environment env (Some n) None
   = Running).
Proof.
  rewrite run_unfold.
  destruct (loop_num_episodes n label temple_environment fuel (start env))
    as [H1 H2].
  simpl in H1, H2. rewrite Z.sub_0_r in H1, H2. split.
  - intros Hfuel. destruct (H1 Hfuel) as (st & -> & Hc & Hl).
    exists st. repeat split; assumption.
  - intros Hfuel. rewrite (H2 Hfuel). reflexivity.
Qed.

(** X16.  With [num_steps = n] and no bound on the episodes, a run that
    ends has made [n] steps or more, and the steps made before its last
    episode were fewer than [n]: only the last episode can overshoot.  The
    step count is the sum of the logged episode lengths. *)
Theorem run_num_steps_overshoot (fuel : nat)
    (label temple_environment : string) (env : environment) (n : Z)
    (st : loop_state environment) :
  run run_episode fuel label temple_environment env None (Some n)
  = Finished st ->
  n <= step_count st /\
  step_count st = total_length (logged st) /\
  match logged st with
  | [] => n <= 0
  | last :: before => total_length before < n
  end.
Proof.
  rewrite run_unfold.
  destruct (loop run_episode fuel label temple_environment None (Some n)
              (start env)) as [st'|] eqn:E; [|discriminate].
  intros H. injection H as <-.
  apply (loop_invariant
           (fun s =>
              step_count s = total_length (logged s) /\
              match logged s with
              | [] => step_count s = 0
              | last :: before => total_length before < n
              end)) in E.
  - destruct E as [[Hsum Hlast] Hend]. unfold should_terminate in Hend.
    rewrite orb_false_l in Hend. apply Z.geb_le in Hend. repeat split; [exact Hend | exact Hsum |].
    destruct (logged st'); [lia | exact Hlast].
  - intros s [Hsum _] Hgo. unfold should_terminate in Hgo. rewrite orb_false_l in Hgo.
    rewrite Z.geb_leb in Hgo. apply Z.leb_gt in Hgo.
    rewrite EnvLoopProofs.loop_body_step_count, loop_body_logged. simpl. split; lia.
  - simpl. split; reflexivity.
Qed.

(** X17.  Where every episode has one step or more, the loop bounded by
    [num_steps = n] ends within [n] passes. *)
Theorem run_num_steps_terminates (fuel : nat)
    (label temple_environment : string) (env : environment) (n : Z) :
  (forall e, 1 <= snd (run_episode e)) ->
  (Z.to_nat n <= fuel)%nat ->
  exists st,
    run run_episode fuel label temple_environment env None (Some n)
    = Finished st /\
    (length (logged st) <= Z.to_nat n)%nat.
Proof.
  intros Hpos Hfuel. rewrite run_unfold.
  assert (H : forall fuel s,
            (Z.to_nat (n - step_count s) <= fuel)%nat ->
            exists st,
              loop run_episode fuel label temple_environment None (Some n) s
              = Some st /\
              (length (logged st) <=
               length (logged s) + Z.to_nat (n - step_count s))%nat).
  { clear fuel Hfuel. induction fuel as [|fuel IH]; intros s Hs; simpl;
      unfold should_terminate; rewrite orb_false_l;
      destruct (Z.geb_spec (step_count s) n) as [Hge|Hlt].
    - exists s. split; [reflexivity | lia].
    - lia.
    - exists s. split; [reflexivity | lia].
    - pose proof (Hpos (_environment s)) as Hlen.
      destruct (IH (loop_body run_episode label temple_environment s))
        as (st & H1 & H2).
      + rewrite EnvLoopProofs.loop_body_step_count. lia.
      + exists st. split; [exact H1|].
        rewrite EnvLoopProofs.loop_body_step_count, loop_body_logged in H2. simpl in H2.
        lia. }
  destruct (H fuel (start env)) as (st & -> & Hl).
  - simpl. rewrite Z.sub_0_r. exact Hfuel.
  - exists st. split; [reflexivity|]. simpl in Hl. rewrite Z.sub_0_r in Hl.
    exact Hl.
Qed.

(** X18.  [run] raises [ValueError] exactly when both bounds are given, and
    then before any episode; with neither bound it never returns. *)
Theorem run_bounds (fuel : nat) (label temple_environment : string)
    (env : environment) (num_episodes num_steps : option Z) :
  (run run_episode fuel label temple_environment env num_episodes num_steps
   = ValueError <->
   num_episodes <> None /\ num_steps <> None) /\
  run run_episode fuel label temple_environment env None None = Running.
Proof.
  split.
  - rewrite run_unfold. destruct num_episodes, num_steps;
      try (split; [discriminate | intros [? ?]; congruence]);
      try (split; [intros _; split; discriminate | reflexivity]);
      (split; [|intros [? ?]; congruence]);
      destruct (loop _ _ _ _ _ _ _); discriminate.
  - rewrite run_unfold.
    assert (H : forall s,
              loop run_episode fuel label temple_environment None None s
              = None).
    { induction fuel as [|f IH]; intros s; [reflexivity | apply IH]. }
    rewrite H. reflexivity.
Qed.

(** The result of a run without its file store. *)
Definition without_files (r : run_result environment)
  : run_result environment :=
  match r with
  | Finished st =>
      Finished {| _environment := _environment st;
                  episode_count := episode_count st;
                  step_count := step_count st;
                  written := [];
                  logged := logged st |}
  | other => other
  end.

Lemma loop_without_files (fuel : nat) (label temple_environment : string)
    (num_episodes num_steps : option Z) (st st0 : loop_state environment) :
  _environment st = _environment st0 ->
  episode_count st = episode_count st0 ->
  step_count st = step_count st0 ->
  logged st = logged st0 ->
  written st0 = [] ->
  match loop run_episode fuel label temple_environment num_episodes
          num_steps st,
        EnvLoopD4PG.loop run_episode fuel num_episodes num_steps st0 with
  | Some s, Some s0 =>
      _environment s = _environment s0 /\
      episode_count s = episode_count s0 /\
      step_count s = step_count s0 /\
      logged s = logged s0 /\
      written s0 = []
  | None, None => True
  | _, _ => False
  end.
Proof.
  revert st st0. induction fuel as [|fuel IH]; intros st st0 He Hc Hs Hl Hw;
    simpl; rewrite <- Hc, <- Hs;
    destruct (should_terminate num_episodes num_steps (episode_count st)
                (step_count st)); try (repeat split; assumption); try exact I.
  apply IH; unfold loop_body, EnvLoopD4PG.loop_body; rewrite <- He;
    destruct (run_episode (_environment st)); simpl; congruence.
Qed.

(** X19.  [EnvironmentLoopforD4PG.run] is [EnvironmentLoop.run] without the
    snapshots: the two loops end together, with the same environment,
    counts and logged results, under every label; under a label other than
    ['Evaluator_Loop'] they agree on the file store too. *)
Theorem run_agrees_with_D4PG_loop (fuel : nat)
    (label temple_environment : string) (env : environment)
    (num_episodes num_steps : option Z) :
  without_files
    (run run_episode fuel label temple_environment env num_episodes
       num_steps)
  = EnvLoopD4PG.run run_episode fuel env num_episodes num_steps /\
  (label <> "Evaluator_Loop"%string ->
   run run_episode fuel label temple_environment env num_episodes num_steps
   = EnvLoopD4PG.run run_episode fuel env num_episodes num_steps).
Proof.
  assert (Hloops :=
    loop_without_files fuel label temple_environment num_episodes num_steps
      (start env) (start env) eq_refl eq_refl eq_refl eq_refl eq_refl).
  assert (Hfiles : forall st,
            label <> "Evaluator_Loop"%string ->
            loop run_episode fuel label temple_environment num_episodes
              num_steps (start env) = Some st ->
            written st = []).
  { intros st Hlabel H.
    apply (loop_invariant (fun s => written s = [])) in H;
      [apply H | | reflexivity].
    intros s Hs _. rewrite EnvLoopProofs.loop_body_written.
    apply String.eqb_neq in Hlabel. rewrite Hlabel, andb_false_r. exact Hs. }
  rewrite run_unfold. unfold EnvLoopD4PG.run. fold (start env).
  revert Hloops.
  destruct num_episodes as [ne|], num_steps as [ns|];
    try (split; [reflexivity | intros _; reflexivity]);
    (destruct (loop run_episode fuel label temple_environment _ _ (start env))
       as [s|] eqn:E,
       (EnvLoopD4PG.loop run_episode fuel _ _ (start env)) as [s0|];
     intros Hloops;
     [ destruct Hloops as (He & Hc & Hs & Hl & Hw);
       (split; [|intros Hlabel; specialize (Hfiles s Hlabel eq_refl)]);
       destruct s, s0; simpl in *; congruence
     | destruct Hloops
     | destruct Hloops
     | split; [reflexivity | intros _; reflexivity] ]).
Qed.

(** X20.  All snapshots of a run go to one path, that of the name
    [temple_environment]; under the label ['Evaluator_Loop'], when the run
    ends after one episode or more on a step count that is not a multiple of
    15000, the file at that path holds the final environment. *)
Theorem run_snapshot_is_latest (fuel : nat) (temple_environment : string)
    (env : environment) (num_episodes num_steps : option Z)
    (st : loop_state environment) :
  run run_episode fuel "Evaluator_Loop" temple_environment env num_episodes
    num_steps = Finished st ->
  List.Forall (fun file => fst file = path_of temple_environment)
    (written st) /\
  (length (written st) <= length (logged st))%nat /\
  (logged st <> [] -> step_count st mod 15000 <> 0 ->
   load_obj (path_of temple_environment) (written st)
   = Some (_environment st)).
Proof.
  rewrite run_unfold. intros H.
  assert (E : loop run_episode fuel "Evaluator_Loop" temple_environment
                num_episodes num_steps (start env) = Some st).
  { destruct num_episodes, num_steps; try discriminate;
      destruct (loop _ _ _ _ _ _ _); try discriminate;
      injection H as <-; reflexivity. }
  clear H.
  apply (loop_invariant
           (fun s =>
              List.Forall (fun file => fst file = path_of temple_environment)
                (written s) /\
              (length (written s) <= length (logged s))%nat /\
              (logged s <> [] -> step_count s mod 15000 <> 0 ->
               load_obj (path_of temple_environment) (written s)
               = Some (_environment s)))) in E; [apply E | | ].
  - intros s (Hall & Hlen & _) _.
    rewrite EnvLoopProofs.loop_body_written, loop_body_logged. rewrite String.eqb_refl.
    rewrite andb_true_r.
    destruct (Z.eqb_spec
                (step_count
                   (loop_body run_episode "Evaluator_Loop" temple_environment
                      s) mod 15000) 0) as [Hz|Hnz]; simpl negb; cbv iota.
    + split; [exact Hall|]. split; [simpl; lia|]. intros _ Hn.
      destruct (Hn Hz).
    + rewrite save_obj_path. split; [|split].
      * apply List.Forall_cons; [reflexivity | exact Hall].
      * simpl. lia.
      * intros _ _. simpl. rewrite String.eqb_refl. reflexivity.
  - simpl. split; [apply List.Forall_nil|]. split; [lia|].
    intros Hne. destruct (Hne eq_refl).
Qed.

End RunMore.

(** *** Concrete runs *)

Lemma run_num_steps_overshoot_witness :
  10 <= 14 /\ 14 = total_length [7; 7] /\ total_length [7] < 10.
Proof.
  apply (run_num_steps_overshoot Z (EnvLoopProofs.episodes_of 7) 5
           "environment_loop" "temple_environment" 0 10
           {| _environment := 2; episode_count := 2; step_count := 14;
              written := []; logged := [7; 7] |}).
  vm_compute. reflexivity.
Defined.

Lemma run_num_steps_terminates_witness :
  exists st,
    run (EnvLoopProofs.episodes_of 7) 10 "environment_loop"
      "temple_environment" 0 None (Some 10) = Finished st /\
    (length (logged st) <= Z.to_nat 10)%nat.
Proof.
  apply (run_num_steps_terminates Z (EnvLoopProofs.episodes_of 7) 10
           "environment_loop" "temple_environment" 0 10).
  - intros e. simpl. lia.
  - lia.
Defined.

Lemma run_snapshot_is_latest_witness :
  List.Forall (fun file : string * Z => fst file = path_of "temple_environment")
    [("temple_environment.pkl"%string, 3); ("temple_environment.pkl"%string, 2);
     ("temple_environment.pkl"%string, 1)] /\
  (3 <= 3)%nat /\
  ([1; 1; 1] <> [] -> 3 mod 15000 <> 0 ->
   load_obj (path_of "temple_environment")
     [("temple_environment.pkl"%string, 3); ("temple_environment.pkl"%string, 2);
      ("temple_environment.pkl"%string, 1)] = Some 3).
Proof.
  apply (run_snapshot_is_latest Z (EnvLoopProofs.episodes_of 1) 3
           "temple_environment" 0 (Some 3) None
           {| _environment := 3; episode_count := 3; step_count := 3;
              written := [("temple_environment.pkl"%string, 3);
                          ("temple_environment.pkl"%string, 2);
                          ("temple_environment.pkl"%string, 1)];
              logged := [1; 1; 1] |}).
  vm_compute. reflexivity.
Defined.

End EnvLoopMore.

(** ** More on the learner *)

Module LearnerMore.
Import Learner LearnerServing LearnerProofs.

(** *** [zip] in the target update *)

Section Zip.

Variable tensor : Type.

(** X21.  [zip] stops at the shorter tuple: the leading target variables
    take the values of the online variables at the same positions, target
    variables beyond the online ones keep their values, online variables
    beyond the target ones are ignored; the target variables stay as many
    as they were. *)
Theorem assign_all_zip (srcs dests : list tensor) :
  assign_all srcs dests =
  take (length dests) srcs ++ drop (length srcs) dests /\
  length (assign_all srcs dests) = length dests.
Proof.
  split; [|apply assign_all_length].
  revert dests. induction srcs as [|src srcs IH]; intros [|dest dests];
    simpl; try reflexivity.
  rewrite IH. reflexivity.
Qed.

End Zip.

(** *** The variables served by [get_variables] *)

Open Scope string_scope.

(** The keys of [self._variables]. *)
Definition keys : list string :=
  ["vehicle_critic"; "vehicle_policy"; "edge_critic"; "edge_policy"].

Section Serving.

Variable tensor : Type.
Variable sample : Type.
Variable fetches : Type.
Variable _step :
  sample -> networks tensor -> networks tensor -> networks tensor * fetches.
Variable reduce_mean_over_replicas : fetches -> fetches.

Lemma getitem_keys (self : learner tensor sample) (name : string) :
  match getitem (_variables self) name with
  | Found _ => In name keys
  | KeyError missing => missing = name /\ ~ In name keys
  end.
Proof.
  unfold _variables, keys. cbn [getitem].
  destruct (String.eqb_spec "vehicle_critic" name) as [<-|H1];
    [simpl; tauto|].
  destruct (String.eqb_spec "vehicle_policy" name) as [<-|H2];
    [simpl; tauto|].
  destruct (String.eqb_spec "edge_critic" name) as [<-|H3]; [simpl; tauto|].
  destruct (String.eqb_spec "edge_policy" name) as [<-|H4]; [simpl; tauto|].
  split; [reflexivity|]. simpl. tauto.
Qed.

(** X23.  [get_variables] returns one entry per name, in the order of the
    names, when every name is one of the four keys; otherwise it raises
    [KeyError] for the first name that is not a key. *)
Theorem get_variables_keys (self : learner tensor sample)
    (names : list string) :
  match get_variables self names with
  | Found values =>
      List.Forall (fun name => In name keys) names /\
      length values = length names /\
      (forall i name,
         names !! i = Some name ->
         exists value,
           values !! i = Some value /\
           getitem (_variables self) name = Found value)
  | KeyError missing =>
      exists before after,
        names = (before ++ missing :: after)%list /\
        List.Forall (fun name => In name keys) before /\
        ~ In missing keys
  end.
Proof.
  induction names as [|name names IH]; cbn [get_variables].
  - split; [apply List.Forall_nil|]. split; [reflexivity|].
    intros i name H. rewrite lookup_nil in H. discriminate.
  - pose proof (getitem_keys self name) as Hk.
    destruct (getitem (_variables self) name) as [value|missing] eqn:E.
    + destruct (get_variables self names) as [values|missing].
      * destruct IH as (Hall & Hlen & Hval). split; [|split].
        -- apply List.Forall_cons; assumption.
        -- simpl. rewrite Hlen. reflexivity.
        -- intros [|i] n Hn; simpl in Hn.
           ++ injection Hn as <-. exists value. split; [reflexivity|exact E].
           ++ apply (Hval i n Hn).
      * destruct IH as (before & after & -> & Hall & Hmiss).
        exists (name :: before), after. split; [reflexivity|].
        split; [apply List.Forall_cons; assumption | exact Hmiss].
    + destruct Hk as [-> Hk]. exists [], names.
      split; [reflexivity|]. split; [apply List.Forall_nil | exact Hk].
Qed.

Lemma get_variables_target (self self' : learner tensor sample)
    (names : list string) :
  target self' = target self ->
  get_variables self' names = get_variables self names.
Proof.
  intros H. induction names as [|name names IH]; [reflexivity|].
  simpl. unfold _variables. rewrite H, IH. reflexivity.
Qed.

(** X24.  The variables served are those of the target networks: a call of
    [_replicated_step] on a step count that is not a multiple of the period
    leaves every answer of [get_variables] as it was, and one on a multiple
    of the period makes it serve the online variables as they were before
    the call, that is before the gradient step of that call. *)
Theorem served_variables_lag (self : learner tensor sample)
    (names : list string) :
  _target_update_period self <> 0%Z ->
  ((_num_steps self mod _target_update_period self)%Z <> 0%Z ->
   get_variables
     (fst (_replicated_step _step reduce_mean_over_replicas self)) names
   = get_variables self names) /\
  (same_shape tensor (online self) (target self) ->
   (_num_steps self mod _target_update_period self)%Z = 0%Z ->
   get_variables
     (fst (_replicated_step _step reduce_mean_over_replicas self)) keys
   = Found
       [vehicle_critic_network (online self);
        (vehicle_observation_network (online self) ++
         vehicle_policy_network (online self))%list;
        edge_critic_network (online self);
        (edge_observation_network (online self) ++
         edge_policy_network (online self))%list]).
Proof.
  intros Hp. split.
  - intros Hmod. apply get_variables_target.
    rewrite replicated_step_target by exact Hp.
    apply update_target_keeps, Hmod.
  - intros Hshape Hmod.
    assert (H : target
                  (fst (_replicated_step _step reduce_mean_over_replicas
                          self)) = online self).
    { rewrite replicated_step_target by exact Hp.
      apply update_target_copies; assumption. }
    unfold keys. simpl. unfold _variables. rewrite H. reflexivity.
Qed.

End Serving.

(** *** The accelerator *)

Section AcceleratorsMore.

Variable device : Type.
Variable get_visible_devices : string -> list device.

(** X25.  [get_first_available_accelerator_type] returns the first type of
    the wishlist that has a visible device, and raises [RuntimeError]
    exactly when no type of the wishlist has one; with the default wishlist
    ['CPU'] is returned only when neither a TPU nor a GPU is visible. *)
Theorem first_available_accelerator (wishlist : list string) :
  match get_first_available_accelerator_type get_visible_devices wishlist with
  | Returned wishlist_device =>
      exists before after,
        wishlist = (before ++ wishlist_device :: after)%list /\
        List.Forall (fun w => get_visible_devices w = []) before /\
        get_visible_devices wishlist_device <> []
  | RuntimeError =>
      List.Forall (fun w => get_visible_devices w = []) wishlist
  end /\
  (get_first_available_accelerator_type get_visible_devices default_wishlist
   = Returned "CPU" <->
   get_visible_devices "TPU" = [] /\ get_visible_devices "GPU" = [] /\
   get_visible_devices "CPU" <> []).
Proof.
  split.
  - induction wishlist as [|w wishlist IH]; simpl; [apply List.Forall_nil|].
    destruct (get_visible_devices w) as [|d ds] eqn:E.
    + destruct (get_first_available_accelerator_type get_visible_devices
                  wishlist) as [r|].
      * destruct IH as (before & after & -> & Hall & Hr).
        exists (w :: before), after. split; [reflexivity|].
        split; [apply List.Forall_cons; assumption | exact Hr].
      * apply List.Forall_cons; assumption.
    + exists [], wishlist. split; [reflexivity|].
      split; [apply List.Forall_nil|]. rewrite E. discriminate.
  - unfold default_wishlist. simpl.
    destruct (get_visible_devices "TPU"), (get_visible_devices "GPU"),
      (get_visible_devices "CPU"); split;
      try discriminate; try (intros (? & ? & ?); congruence);
      try (intros _; repeat split; discriminate);
      try reflexivity.
Qed.

End AcceleratorsMore.

(** *** The joint action of [_step] *)

Section JointActionMore.

Variable block : Type.
Variable target_action : nat -> block.
Variable online_action : block.

(** The block that the loop of [dpg_a_t] appends for [i]. *)
Definition block_of (vehicle_index i : nat) : block :=
  if Nat.eqb i vehicle_index then online_action else target_action i.

Lemma dpg_a_t_loop_from (vehicle_index a m : nat) (acc : list block) :
  (1 <= a)%nat ->
  fold_left
    (fun dpg_a_t i =>
       if negb (Nat.eqb i 0) && negb (Nat.eqb i vehicle_index)
       then (dpg_a_t ++ [target_action i])%list
       else if negb (Nat.eqb i 0) && Nat.eqb i vehicle_index
       then (dpg_a_t ++ [online_action])%list
       else dpg_a_t)
    (seq a m) acc
  = (acc ++ map (block_of vehicle_index) (seq a m))%list.
Proof.
  revert a acc. induction m as [|m IH]; intros a acc Ha; simpl.
  - rewrite app_nil_r. reflexivity.
  - rewrite IH by lia. unfold block_of at 2.
    destruct (Nat.eqb_spec a 0) as [->|_]; [lia|].
    destruct (Nat.eqb a vehicle_index); simpl;
      rewrite <- app_assoc; reflexivity.
Qed.

Lemma dpg_a_t_blocks (_vehicle_number vehicle_index : nat) :
  (1 <= _vehicle_number)%nat ->
  dpg_a_t target_action online_action _vehicle_number vehicle_index =
  map (block_of vehicle_index) (range _vehicle_number).
Proof.
  intros Hn. destruct _vehicle_number as [|m]; [lia|].
  unfold dpg_a_t, range. simpl seq. cbn [fold_left].
  rewrite Nat.eqb_refl. cbn [negb andb].
  rewrite dpg_a_t_loop_from by lia. cbn [map].
  change (block_of vehicle_index 0)
    with (if Nat.eqb 0 vehicle_index then online_action else target_action 0).
  rewrite (Nat.eqb_sym 0 vehicle_index).
  destruct (Nat.eqb vehicle_index 0); reflexivity.
Qed.

(** X26.  For a vehicle of the loop, the action given to its critic in the
    policy loss has one block per vehicle: the block of the vehicle itself is
    the action of its online policy, every other block is the action of the
    target policy, in the order of the vehicles.  It is the joint target
    action with the vehicle's own block replaced. *)
Theorem joint_action_of_vehicle (_vehicle_number vehicle_index : nat) :
  (vehicle_index < _vehicle_number)%nat ->
  dpg_a_t target_action online_action _vehicle_number vehicle_index =
  <[vehicle_index := online_action]>
    (vehicles_a_t target_action _vehicle_number) /\
  length (dpg_a_t target_action online_action _vehicle_number vehicle_index)
  = _vehicle_number /\
  dpg_a_t target_action online_action _vehicle_number vehicle_index
    !! vehicle_index = Some online_action /\
  (forall i,
     (i < _vehicle_number)%nat -> i <> vehicle_index ->
     dpg_a_t target_action online_action _vehicle_number vehicle_index !! i
     = Some (target_action i)).
Proof.
  intros Hv. rewrite dpg_a_t_blocks by lia. unfold vehicles_a_t, range.
  assert (Hlookup : forall i,
            (i < _vehicle_number)%nat ->
            map (block_of vehicle_index) (seq 0 _vehicle_number) !! i
            = Some (block_of vehicle_index i)).
  { intros i Hi.
    change (map (block_of vehicle_index) (seq 0 _vehicle_number))
      with (block_of vehicle_index <$> seq 0 _vehicle_number).
    rewrite list_lookup_fmap, lookup_seq_lt by exact Hi. reflexivity. }
  split; [|split; [|split]].
  - apply list_eq. intros i.
    destruct (Nat.lt_ge_cases i _vehicle_number) as [Hi|Hi].
    + rewrite (Hlookup i Hi). unfold block_of.
      destruct (Nat.eqb_spec i vehicle_index) as [->|Hne].
      * rewrite list_lookup_insert_eq; [reflexivity|].
        rewrite length_map, length_seq. exact Hv.
      * rewrite list_lookup_insert_ne by congruence.
        change (map target_action (seq 0 _vehicle_number))
          with (target_action <$> seq 0 _vehicle_number).
        rewrite list_lookup_fmap, lookup_seq_lt by exact Hi. reflexivity.
    + rewrite lookup_ge_None_2
        by (rewrite length_map, length_seq; exact Hi).
      rewrite lookup_ge_None_2
        by (rewrite length_insert, length_map, length_seq; exact Hi).
      reflexivity.
  - rewrite length_map, length_seq. reflexivity.
  - rewrite (Hlookup _ Hv). unfold block_of. rewrite Nat.eqb_refl.
    reflexivity.
  - intros i Hi Hne. rewrite (Hlookup _ Hi). unfold block_of.
    apply Nat.eqb_neq in Hne. rewrite Hne. reflexivity.
Qed.

End JointActionMore.

(** *** Concrete learners *)

(** The first call on [learner_5] is on the step count 0: the variables
    served afterwards are the online variables of [learner_5]. *)
Lemma served_variables_lag_witness :
  get_variables
    (fst (_replicated_step train_step (fun f => f) learner_5)) keys
  = Found [[2; 3]; [1; 4]; [5]; [6]]%Z.
Proof.
  destruct (served_variables_lag Z unit unit train_step (fun f => f)
              learner_5 keys) as [_ H]; [simpl; lia|].
  apply H; [|reflexivity]. unfold same_shape. simpl. tauto.
Defined.

(** Three vehicles, the blocks being numbers: the second vehicle's own block
    is replaced. *)
Lemma joint_action_of_vehicle_witness :
  dpg_a_t (fun i => i) 100%nat 3 1 = [0; 100; 2]%nat.
Proof.
  destruct (joint_action_of_vehicle nat (fun i => i) 100%nat 3 1) as [H _];
    [lia|].
  rewrite H. reflexivity.
Defined.

End LearnerMore.

(** ** More on [run_episode] *)

Module EpisodeMore.
Import Episode.
Open Scope Q_scope.

Lemma truediv_nonzero (a b : Q) : ~ b == 0 -> truediv a b = Ok (a / b).
Proof.
  intros Hb. unfold truediv. destruct (Qeq_bool b 0) eqn:E; [|reflexivity].
  apply Qeq_bool_iff in E. contradiction.
Qed.

Lemma truediv_zero (a b : Q) : b == 0 -> truediv a b = Raise ZeroDivisionError.
Proof.
  intros Hb. unfold truediv. apply Qeq_bool_iff in Hb. rewrite Hb.
  reflexivity.
Qed.

Lemma truediv_raises (a b : Q) (e : exn) :
  truediv a b = Raise e -> e = ZeroDivisionError /\ b == 0.
Proof.
  unfold truediv. destruct (Qeq_bool b 0) eqn:E; [|discriminate].
  intros H. injection H as <-. split; [reflexivity|].
  apply Qeq_bool_iff, E.
Qed.

(** Whether the accumulator of [q] is divided after the loop. *)
Definition is_averaged (q : quantity) : bool :=
  match q with
  | cumulative_aov | cumulative_cost => false
  | _ => true
  end.

(** The seven divisions after the loop. *)
Lemma averages_nonzero (n : Q) (totals : quantity -> Q) :
  ~ n == 0 ->
  exists averages,
    for_each averaged (divide n) totals = Ok averages /\
    forall q,
      averages q = if is_averaged q then totals q / n else totals q.
Proof.
  intros Hn. unfold averaged, divide. cbn [for_each].
  repeat (rewrite truediv_nonzero by exact Hn; cbn [bind]).
  eexists. split; [reflexivity|]. intros q. destruct q; reflexivity.
Qed.

Lemma averages_zero (n : Q) (totals : quantity -> Q) :
  n == 0 -> for_each averaged (divide n) totals = Raise ZeroDivisionError.
Proof.
  intros Hn. unfold averaged, divide. cbn [for_each].
  rewrite truediv_zero by exact Hn. reflexivity.
Qed.

Section RunEpisodeMore.

Variable world : Type.
Variable timestep : Type.
Variable action : Type.
Variable reward : Type.
Variable time : world -> Q.
Variable reset : world -> world * timestep.
Variable observe_first : timestep -> world -> world.
Variable last : timestep -> bool.
Variable select_action : timestep -> world -> world * action.
Variable step : action -> world -> world * (timestep * (quantity -> Q)).
Variable observe : action -> timestep -> world -> world.
Variable update : world -> world.
Variable increment : Z -> world -> world.
Variable zeros : reward.
Variable iadd : reward -> timestep -> reward.
Variable _label : string.
Variable _should_update : bool.

Abbreviation loop_body :=
  (loop_body select_action step observe update iadd _should_update).
Abbreviation loop :=
  (loop last select_action step observe update iadd _should_update).
Abbreviation run_episode :=
  (run_episode time reset observe_first last select_action step observe
     update increment zeros iadd _label _should_update).

(** The variables at the start of the loop. *)
Definition start (w : world) : loop_vars world timestep reward :=
  {| the_world := observe_first (snd (reset w)) (fst (reset w));
     the_timestep := snd (reset w);
     episode_steps := 0;
     episode_return := zeros;
     accumulators := fun _ => 0 |}.

Lemma run_episode_unfold (fuel : nat) (w : world) :
  run_episode fuel w =
  match loop fuel (start w) with
  | None => None
  | Some vars =>
      let w' := increment (episode_steps vars) (the_world vars) in
      Some
        (w',
         do steps_per_second <-
           truediv (inject_Z (episode_steps vars)) (time w' - time w) ;
         do accumulators <-
           for_each averaged (divide (inject_Z (episode_steps vars)))
             (accumulators vars) ;
         Ok {| label := _label;
               episode_length := episode_steps vars;
               result_episode_return := episode_return vars;
               steps_per_second := steps_per_second;
               logged_quantity := accumulators |})
  end.
Proof.
  unfold Episode.run_episode, start. destruct (reset w) as [w1 ts].
  reflexivity.
Qed.

(** The values returned by the steps of the loop, in the order of the
    steps. *)
Definition values_of_pass (vars : loop_vars world timestep reward)
  : quantity -> Q :=
  let '(w, action) := select_action (the_timestep vars) (the_world vars) in
  snd (snd (step action w)).

Fixpoint step_values (fuel : nat) (vars : loop_vars world timestep reward)
  : list (quantity -> Q) :=
  if last (the_timestep vars) then []
  else
    match fuel with
    | O => []
    | S fuel' => values_of_pass vars :: step_values fuel' (loop_body vars)
    end.

(** The sum of a quantity over the steps. *)
Definition total (q : quantity) (values : list (quantity -> Q)) : Q :=
  fold_right (fun v sum => v q + sum) 0 values.

Lemma loop_body_episode_steps (vars : loop_vars world timestep reward) :
  episode_steps (loop_body vars) = (episode_steps vars + 1)%Z.
Proof.
  unfold Episode.loop_body.
  destruct (select_action (the_timestep vars) (the_world vars)) as [w a].
  destruct (step a w) as [w' [ts values]]. reflexivity.
Qed.

Lemma loop_body_accumulators (vars : loop_vars world timestep reward)
    (q : quantity) :
  accumulators (loop_body vars) q =
  accumulators vars q + values_of_pass vars q.
Proof.
  unfold Episode.loop_body, values_of_pass.
  destruct (select_action (the_timestep vars) (the_world vars)) as [w a].
  destruct (step a w) as [w' [ts values]]. reflexivity.
Qed.

Lemma loop_totals (fuel : nat) (vars vars' : loop_vars world timestep reward) :
  loop fuel vars = Some vars' ->
  episode_steps vars' =
  (episode_steps vars + Z.of_nat (length (step_values fuel vars)))%Z /\
  forall q,
    accumulators vars' q ==
    accumulators vars q + total q (step_values fuel vars).
Proof.
  revert vars. induction fuel as [|fuel IH]; intros vars H; simpl in *;
    destruct (last (the_timestep vars)).
  - injection H as <-. split; [simpl; lia|]. intros q. simpl. ring.
  - discriminate.
  - injection H as <-. split; [simpl; lia|]. intros q. simpl. ring.
  - destruct (IH _ H) as [Hsteps Hacc]. split.
    + rewrite Hsteps, loop_body_episode_steps. simpl length. lia.
    + intros q. rewrite Hacc, loop_body_accumulators. simpl. ring.
Qed.

(** X29.  [run_episode] raises [ZeroDivisionError], after the counter has
    been incremented, when the timestep returned by [reset] is already the
    last one: no step is made and the averages divide by zero.  It raises
    nothing else; and when it returns, the episode had one step or more,
    the clock has moved, and [steps_per_second] times the elapsed time is
    the episode length. *)
Theorem run_episode_division_by_zero (fuel : nat) (w : world) :
  (last (snd (reset w)) = true ->
   run_episode fuel w =
   Some (increment 0 (observe_first (snd (reset w)) (fst (reset w))),
         Raise ZeroDivisionError)) /\
  (forall w' e,
     run_episode fuel w = Some (w', Raise e) -> e = ZeroDivisionError) /\
  (forall w' data,
     run_episode fuel w = Some (w', Ok data) ->
     (1 <= episode_length data)%Z /\
     ~ time w' == time w /\
     steps_per_second data * (time w' - time w)
     == inject_Z (episode_length data)).
Proof.
  rewrite run_episode_unfold. split; [|split].
  - intros Hlast.
    assert (H : loop fuel (start w) = Some (start w))
      by (destruct fuel; simpl; rewrite Hlast; reflexivity).
    rewrite H. cbn [episode_steps the_world start]. cbv zeta.
    destruct (truediv (inject_Z 0) _) as [v|e] eqn:E.
    + cbn [bind]. rewrite averages_zero by reflexivity. reflexivity.
    + apply truediv_raises in E. destruct E as [-> _]. reflexivity.
  - intros w' e. destruct (loop fuel (start w)) as [vars|]; [|discriminate].
    cbv zeta.
    destruct (truediv (inject_Z (episode_steps vars)) _) as [v|e1] eqn:E1;
      cbn [bind].
    + destruct (Qeq_dec (inject_Z (episode_steps vars)) 0) as [Hz|Hnz].
      * rewrite averages_zero by exact Hz. cbn [bind]. congruence.
      * destruct (averages_nonzero _ (accumulators vars) Hnz)
          as (avg & Havg & _).
        rewrite Havg. cbn [bind]. discriminate.
    + apply truediv_raises in E1. destruct E1 as [-> _]. congruence.
  - intros w' data. destruct (loop fuel (start w)) as [vars|] eqn:El;
      [|discriminate].
    cbv zeta.
    destruct (loop_totals _ _ _ El) as [Hsteps _].
    cbn [episode_steps start] in Hsteps.
    unfold truediv.
    destruct (Qeq_bool (time (increment (episode_steps vars)
                                (the_world vars)) - time w) 0) eqn:Et;
      cbn [bind]; [discriminate|].
    destruct (Qeq_dec (inject_Z (episode_steps vars)) 0) as [Hz|Hnz].
    { rewrite averages_zero by exact Hz. discriminate. }
    destruct (averages_nonzero _ (accumulators vars) Hnz) as (avg & Havg & _).
    rewrite Havg. cbn [bind]. intros H. injection H as Hw <-.
    cbn [episode_length steps_per_second]. subst w'.
    assert (Hclock : ~ time (increment (episode_steps vars) (the_world vars))
                       - time w == 0).
    { intros Hc. apply Qeq_bool_iff in Hc. congruence. }
    split; [|split].
    + assert (episode_steps vars <> 0)%Z.
      { intros Hc. apply Hnz. rewrite Hc. reflexivity. }
      lia.
    + intros Hc. apply Hclock. rewrite Hc. ring.
    + field. exact Hclock.
Qed.

(** X30.  When [run_episode] returns, the episode length is the number of
    steps made; [cumulative_aovs] and [cumulative_costs] are the sums over
    the steps of the values returned by the environment, and each of the
    seven averages is the sum over the steps divided by the number of
    steps. *)
Theorem run_episode_averages (fuel : nat) (w w' : world)
    (data : logging_data reward) :
  run_episode fuel w = Some (w', Ok data) ->
  let values := step_values fuel (start w) in
  episode_length data = Z.of_nat (length values) /\
  values <> [] /\
  forall q,
    logged_quantity data q ==
    if is_averaged q
    then total q values / inject_Z (Z.of_nat (length values))
    else total q values.
Proof.
  rewrite run_episode_unfold.
  destruct (loop fuel (start w)) as [vars|] eqn:El; [|discriminate].
  cbv zeta.
  destruct (loop_totals _ _ _ El) as [Hsteps Hacc].
  cbn [episode_steps accumulators start] in Hsteps, Hacc.
  destruct (truediv (inject_Z (episode_steps vars)) _) as [v|]; cbn [bind];
    [|discriminate].
  destruct (Qeq_dec (inject_Z (episode_steps vars)) 0) as [Hz|Hnz].
  { rewrite averages_zero by exact Hz. discriminate. }
  destruct (averages_nonzero _ (accumulators vars) Hnz) as (avg & Havg & Hq).
  rewrite Havg. cbn [bind]. intros H. injection H as _ <-.
  cbn [episode_length logged_quantity].
  assert (Hlen : episode_steps vars
                 = Z.of_nat (length (step_values fuel (start w))))
    by (rewrite Hsteps; lia).
  split; [exact Hlen|]. split.
  - intros Hnil. apply Hnz. rewrite Hlen, Hnil. reflexivity.
  - intros q. rewrite Hq. rewrite <- Hlen.
    destruct (is_averaged q); rewrite Hacc; [field; exact Hnz | ring].
Qed.

End RunEpisodeMore.

(** *** A concrete episode *)

(** The world is a clock and the number of steps left in the episode; every
    call of the environment advances the clock, [reset] starts an episode of
    two steps, and every step returns 3 for every quantity. *)
Definition toy_reset (w : Z * nat) : (Z * nat) * nat :=
  (((fst w + 1)%Z, 2%nat), 2%nat).

Definition toy_step (a : unit) (w : Z * nat)
  : (Z * nat) * (nat * (quantity -> Q)) :=
  (((fst w + 1)%Z, Nat.pred (snd w)), (Nat.pred (snd w), fun _ => 3)).

Definition toy_episode (fuel : nat) (w : Z * nat)
  : option ((Z * nat) * result (logging_data unit)) :=
  run_episode (fun w => inject_Z (fst w)) toy_reset (fun _ w => w)
    (fun ts => Nat.eqb ts 0) (fun _ w => (w, tt)) toy_step (fun _ _ w => w)
    (fun w => w) (fun _ w => w) tt (fun _ _ => tt) "environment_loop" true
    fuel w.

Definition toy_data : logging_data unit :=
  match toy_episode 5 (0%Z, 0%nat) with
  | Some (_, Ok data) => data
  | _ =>
      {| label := ""; episode_length := 0; result_episode_return := tt;
         steps_per_second := 0; logged_quantity := fun _ => 0 |}
  end.

Lemma run_episode_averages_witness :
  episode_length toy_data = 2%Z /\
  logged_quantity toy_data cumulative_aov == 6 /\
  logged_quantity toy_data average_aov == 3.
Proof.
  destruct (run_episode_averages (Z * nat) nat unit unit
              (fun w => inject_Z (fst w)) toy_reset (fun _ w => w)
              (fun ts => Nat.eqb ts 0) (fun _ w => (w, tt)) toy_step
              (fun _ _ w => w) (fun w => w) (fun _ w => w) tt
              (fun _ _ => tt) "environment_loop" true
              5 (0%Z, 0%nat) (3%Z, 0%nat) toy_data eq_refl)
    as (H1 & _ & H3).
  split; [exact H1|]. split.
  - rewrite (H3 cumulative_aov). reflexivity.
  - rewrite (H3 average_aov). reflexivity.
Defined.

End EpisodeMore.

